(** * iris-rs: the wasm packaging scripts and the transaction builder contract

    The development follows the repository layout:
    - [Js]: the fragment of JavaScript values and string operations that the
      scripts under [crates/iris-wasm/scripts] rely on;
    - [Guards]: the generic type guards that [filter-guards.js] appends;
    - [FilterGuards]: the line filter of [filter-guards.js];
    - [UpdatePackageJson]: [update-package-json.js];
    - [TxBuilder]: the builder life cycle, whose implementation lives in the
      Rust crates and is modelled from the specification. *)

From Stdlib Require Import List ZArith NArith Bool Lia String Ascii.
Import ListNotations.

(* ================================================================== *)
(** ** JavaScript values and strings *)
(* ================================================================== *)

Module Js.

(** A JavaScript string is a sequence of UTF-16 code units. *)
Definition jsstring := list N.

(** An ASCII literal as a JavaScript string. *)
Definition lit (s : string) : jsstring :=
  List.map N_of_ascii (list_ascii_of_string s).

(** The double quote, which the literals of the scripts contain. *)
Definition dquote : N := 34%N.

Fixpoint str_eqb (a b : jsstring) : bool :=
  match a, b with
  | [], [] => true
  | x :: a', y :: b' => N.eqb x y && str_eqb a' b'
  | _, _ => false
  end.

(** [String.prototype.startsWith]. *)
Fixpoint startsWith (s p : jsstring) {struct p} : bool :=
  match p with
  | [] => true
  | c :: p' =>
      match s with
      | [] => false
      | d :: s' => N.eqb c d && startsWith s' p'
      end
  end.

(** [String.prototype.replace] with a string pattern: only the first
    occurrence is replaced; without an occurrence the string is returned as
    it is.  (The replacement texts of the scripts contain no dollar sign, so
    no replacement pattern is expanded.) *)
Fixpoint replace (s p r : jsstring) : jsstring :=
  if startsWith s p then r ++ skipn (List.length p) s
  else match s with
       | [] => []
       | c :: s' => c :: replace s' p r
       end.

(** [String.prototype.includes] on strings. *)
Fixpoint includes (s p : jsstring) : bool :=
  startsWith s p ||
  match s with
  | [] => false
  | _ :: s' => includes s' p
  end.

(** White space and line terminators of ECMAScript, the code units that
    [String.prototype.trim] strips. *)
Definition isWhiteSpace (c : N) : bool :=
  ((9 <=? c) && (c <=? 13) || (c =? 32) || (c =? 160) || (c =? 5760)
   || (8192 <=? c) && (c <=? 8202) || (c =? 8232) || (c =? 8233)
   || (c =? 8239) || (c =? 8287) || (c =? 12288) || (c =? 65279))%N.

Fixpoint trimStart (s : jsstring) : jsstring :=
  match s with
  | [] => []
  | c :: s' => if isWhiteSpace c then trimStart s' else s
  end.

Definition trimEnd (s : jsstring) : jsstring := rev (trimStart (rev s)).

Definition trim (s : jsstring) : jsstring := trimEnd (trimStart s).

(** [s.split(sep)] for a one-unit separator: never empty, the empty string
    splits into one empty piece. *)
Fixpoint split (sep : N) (s : jsstring) : list jsstring :=
  match s with
  | [] => [[]]
  | c :: s' =>
      if N.eqb c sep then [] :: split sep s'
      else match split sep s' with
           | [] => [[c]]
           | l :: ls => (c :: l) :: ls
           end
  end.

(** [lines.join(sep)]. *)
Fixpoint join (sep : jsstring) (ls : list jsstring) : jsstring :=
  match ls with
  | [] => []
  | [l] => l
  | l :: ls' => l ++ sep ++ join sep ls'
  end.

Set Warnings "-register-all".

(** Values.  An array keeps its holes: [None] is an index without a
    property, which [every] skips and which reads as [undefined]. *)
Inductive JsValue : Type :=
| JsUndefined
| JsNull
| JsBool (b : bool)
| JsNumber (z : Z)
| JsString (s : jsstring)
| JsArray (elems : list (option JsValue))
| JsObject (props : list (jsstring * JsValue)).

(** [Array.isArray]. *)
Definition isArray (v : JsValue) : bool :=
  match v with JsArray _ => true | _ => false end.

(** [arr[i]] on the elements of an array: out of range and at a hole the
    read yields [undefined]. *)
Definition index (elems : list (option JsValue)) (i : nat) : JsValue :=
  match nth_error elems i with
  | Some (Some v) => v
  | _ => JsUndefined
  end.

(** A call that may throw: [None] is an exception reaching the caller. *)
Definition completion (A : Type) := option A.

(** [Array.prototype.every] under a callback that takes the element only
    (the arrow functions of the guards): it runs on the present elements in
    index order, stops at the first [false] and lets an exception
    through. *)
Fixpoint every (f : JsValue -> completion bool)
         (elems : list (option JsValue)) : completion bool :=
  match elems with
  | [] => Some true
  | None :: rest => every f rest
  | Some v :: rest =>
      match f v with
      | None => None
      | Some false => Some false
      | Some true => every f rest
      end
  end.

(** A function as [every] calls it when it is handed over as it is: on the
    element, its index and the array. *)
Definition callback := JsValue -> JsValue -> JsValue -> completion bool.

(** [Array.prototype.every] with the callback's three arguments, from index
    [i] on: holes are skipped but counted. *)
Fixpoint everyFrom (f : callback) (arr : JsValue) (i : nat)
         (elems : list (option JsValue)) : completion bool :=
  match elems with
  | [] => Some true
  | None :: rest => everyFrom f arr (S i) rest
  | Some v :: rest =>
      match f v (JsNumber (Z.of_nat i)) arr with
      | None => None
      | Some false => Some false
      | Some true => everyFrom f arr (S i) rest
      end
  end.

Definition everyWith (f : callback) (elems : list (option JsValue))
  : completion bool :=
  everyFrom f (JsArray elems) 0 elems.

(** The present elements of an array. *)
Fixpoint present (elems : list (option JsValue)) : list JsValue :=
  match elems with
  | [] => []
  | None :: rest => present rest
  | Some v :: rest => v :: present rest
  end.

End Js.

(* ================================================================== *)
(** ** The generic guards of filter-guards.js *)
(* ================================================================== *)

Module Guards.
Import Js.

(** A type predicate [(x: unknown) => x is T] supplied by the caller. *)
Definition guard := JsValue -> completion bool.

(** [a && b] where [a] is already a boolean and [b] is evaluated only when
    [a] holds. *)
Definition andThen (a : completion bool) (b : completion bool)
  : completion bool :=
  match a with
  | None => None
  | Some false => Some false
  | Some true => b
  end.

(** A function called on one argument: its further parameters are
    [undefined]. *)
Definition alone (f : callback) : guard :=
  fun x => f x JsUndefined JsUndefined.

(** [obj.every(isE)] hands [isE] over as it is, so [isE] is called on the
    element, its index and the array. *)
Definition isZBase (obj : JsValue) (isE : callback) : completion bool :=
  match obj with
  | JsArray elems => everyWith isE elems
  | _ => Some false
  end.

Definition isZSetEntry (obj : JsValue) (isT : guard) : completion bool :=
  isT obj.

(** The arrow function [(e) => isZSetEntry(e, isT)] drops index and
    array. *)
Definition isZSet (obj : JsValue) (isT : guard) : completion bool :=
  isZBase obj (fun e _ _ => isZSetEntry e isT).

Definition isZMapEntry (obj : JsValue) (isK isV : guard) : completion bool :=
  match obj with
  | JsArray elems =>
      andThen (Some (Nat.eqb (List.length elems) 2))
        (andThen (isK (index elems 0)) (isV (index elems 1)))
  | _ => Some false
  end.

Definition isZMap (obj : JsValue) (isK isV : guard) : completion bool :=
  match obj with
  | JsArray elems => every (fun entry => isZMapEntry entry isK isV) elems
  | _ => Some false
  end.

End Guards.

(* ================================================================== *)
(** ** filter-guards.js *)
(* ================================================================== *)

Module FilterGuards.
Import Js.

Definition excludes : list jsstring :=
  [lit "InitInput"; lit "InitOutput"; lit "SyncInitInput"; lit "ExtendedKey"].

Definition guardsToRemove : list jsstring :=
  [lit "isReadableStreamType"; lit "isInitInput"; lit "isInitOutput";
   lit "isSyncInitInput"; lit "isZBase"; lit "isZSet"; lit "isZSetEntry";
   lit "isZMap"; lit "isZMapEntry"].

(** The texts of the two rewrites. *)
Definition importPat : jsstring := lit "import {".
Definition importRep : jsstring := lit "import type {".
Definition fromPat : jsstring :=
  lit "from " ++ [dquote] ++ lit "./iris_wasm" ++ [dquote].
Definition fromRep : jsstring :=
  lit "from " ++ [dquote] ++ lit "./iris_wasm.js" ++ [dquote].

Definition lbrace : N := 123%N.
Definition rbrace : N := 125%N.

(** The loop [for (const char of line)] that counts braces, started at
    [count]. *)
Definition countBraces (count : Z) (line : jsstring) : Z :=
  fold_left
    (fun n ch =>
       let n := if N.eqb ch lbrace then (n + 1)%Z else n in
       if N.eqb ch rbrace then (n - 1)%Z else n)
    line count.

(** The template literals of the two tests on a line. *)
Definition guardDecl (guardName : jsstring) : jsstring :=
  lit "export function " ++ guardName ++ lit "(".
Definition excludeDecl (exclude : jsstring) : jsstring :=
  lit "export function is" ++ exclude ++ lit "(".

(** The two rewrites at the head of the loop body. *)
Definition rewriteImport (line : jsstring) : jsstring :=
  if startsWith (trim line) importPat then replace line importPat importRep
  else line.

Definition rewriteLine (line : jsstring) : jsstring :=
  replace (rewriteImport line) fromPat fromRep.

(** The variables the loop updates. *)
Record state : Type := mkState {
  newLines : list jsstring;
  skip : bool;
  braceCount : Z;
  insideGuard : bool;
  currentGuardName : jsstring
}.

Definition init : state := mkState [] false 0 false [].

(** The first name of [names] whose declaration opens the line. *)
Definition matchDecl (decl : jsstring -> jsstring) (names : list jsstring)
           (line : jsstring) : option jsstring :=
  find (fun name => startsWith (trim line) (decl name)) names.

(** One iteration of the loop over the lines. *)
Definition step (s : state) (line0 : jsstring) : state :=
  let line := rewriteLine line0 in
  match matchDecl guardDecl guardsToRemove line with
  | Some guardName =>
      mkState (newLines s) (skip s) (countBraces 0 line) true guardName
  | None =>
      if insideGuard s then
        let n := countBraces (braceCount s) line in
        if Z.eqb n 0
        then mkState (newLines s) (skip s) n false []
        else mkState (newLines s) (skip s) n true (currentGuardName s)
      else
        match matchDecl excludeDecl excludes line with
        | Some _ =>
            mkState (newLines s) true (countBraces 0 line)
                    (insideGuard s) (currentGuardName s)
        | None =>
            if skip s then
              let n := countBraces (braceCount s) line in
              mkState (newLines s) (negb (Z.eqb n 0)) n
                      (insideGuard s) (currentGuardName s)
            else
              mkState (newLines s ++ [line]) (skip s) (braceCount s)
                      (insideGuard s) (currentGuardName s)
        end
  end.

Definition newline : N := 10%N.

(** The template literal [genericGuards], line by line: it opens and ends
    with a line break. *)
Definition genericGuardsLines : list jsstring :=
  [ lit "";
    lit "export function isZBase<E>(obj: unknown, isE: (e: unknown) => e is E): obj is ZBase<E> {";
    lit "    return Array.isArray(obj) && obj.every(isE);";
    lit "}";
    lit "";
    lit "export function isZSetEntry<T>(obj: unknown, isT: (t: unknown) => t is T): obj is ZSetEntry<T> {";
    lit "    return isT(obj);";
    lit "}";
    lit "";
    lit "export function isZSet<T>(obj: unknown, isT: (t: unknown) => t is T): obj is ZSet<T> {";
    lit "    return isZBase(obj, (e): e is ZSetEntry<T> => isZSetEntry(e, isT));";
    lit "}";
    lit "";
    lit "export function isZMapEntry<K, V>(obj: unknown, isK: (k: unknown) => k is K, isV: (v: unknown) => v is V): obj is ZMapEntry<K, V> {";
    lit "    return Array.isArray(obj) && obj.length === 2 && isK(obj[0]) && isV(obj[1]);";
    lit "}";
    lit "";
    lit "export function isZMap<K, V>(obj: unknown, isK: (k: unknown) => k is K, isV: (v: unknown) => v is V): obj is ZMap<K, V> {";
    lit "    if (!Array.isArray(obj)) return false;";
    lit "    return obj.every((entry) => isZMapEntry(entry, isK, isV));";
    lit "}";
    lit "" ].

Definition genericGuards : jsstring := join [newline] genericGuardsLines.

(** The lines kept by the loop. *)
Definition filterLines (lines : list jsstring) : list jsstring :=
  newLines (fold_left step lines init).

(** The script, from the text read to the text written. *)
Definition filterGuards (content : jsstring) : jsstring :=
  join [newline] (filterLines (split newline content) ++ [genericGuards]).

End FilterGuards.

(* ================================================================== *)
(** ** update-package-json.js *)
(* ================================================================== *)

Module UpdatePackageJson.
Import Js.

Definition fileToAdd : jsstring := lit "iris_wasm.guard.ts".
Definition filesKey : jsstring := lit "files".

(** [ToBoolean], as the test [!pkg.files] applies it.  (Numbers are kept as
    integers: the script only tests one for being zero.) *)
Definition truthy (v : JsValue) : bool :=
  match v with
  | JsUndefined | JsNull => false
  | JsBool b => b
  | JsNumber z => negb (Z.eqb z 0)
  | JsString s => match s with [] => false | _ => true end
  | JsArray _ | JsObject _ => true
  end.

(** Own data properties of an object, in enumeration order. *)
Fixpoint getProp (props : list (jsstring * JsValue)) (key : jsstring)
  : option JsValue :=
  match props with
  | [] => None
  | (k, v) :: rest => if str_eqb k key then Some v else getProp rest key
  end.

(** [obj[key] = v]: an existing property keeps its place, a new one goes
    last. *)
Fixpoint setProp (props : list (jsstring * JsValue)) (key : jsstring)
         (v : JsValue) : list (jsstring * JsValue) :=
  match props with
  | [] => [(key, v)]
  | (k, w) :: rest =>
      if str_eqb k key then (k, v) :: rest
      else (k, w) :: setProp rest key v
  end.

(** [pkg.files]: a [TypeError] on [null] and [undefined]; [undefined] where
    the value has no such property (arrays and primitives have none). *)
Definition readFiles (pkg : JsValue) : completion JsValue :=
  match pkg with
  | JsUndefined | JsNull => None
  | JsObject props =>
      match getProp props filesKey with
      | Some v => Some v
      | None => Some JsUndefined
      end
  | _ => Some JsUndefined
  end.

(** [files.includes(fileToAdd)]: the array method compares each element
    with the string, the string method looks for a substring, and any other
    value has no callable [includes] (a [TypeError]). *)
Definition isEntry (e : option JsValue) : bool :=
  match e with
  | Some (JsString s) => str_eqb s fileToAdd
  | _ => false
  end.

Definition filesIncludes (files : JsValue) : completion bool :=
  match files with
  | JsArray elems => Some (existsb isEntry elems)
  | JsString s => Some (includes s fileToAdd)
  | _ => None
  end.

(** [files.push(fileToAdd)], defined on arrays only. *)
Definition filesPush (files : JsValue) : completion JsValue :=
  match files with
  | JsArray elems => Some (JsArray (elems ++ [Some (JsString fileToAdd)]))
  | _ => None
  end.

(** What [JSON.stringify] sees of [pkg] once [pkg.files] holds [files]: a
    plain object carries the property; an array carries it as a non-index
    property, which is not serialized; on a primitive the assignment is
    lost, so that the later read of [pkg.files] fails. *)
Definition withFiles (pkg files : JsValue) : completion JsValue :=
  match pkg with
  | JsObject props => Some (JsObject (setProp props filesKey files))
  | JsArray elems => Some (JsArray elems)
  | _ => None
  end.

(** How a run ends: one of the two log lines, or [process.exit(1)] from the
    [catch] block. *)
Inductive outcome : Type := Added | AlreadyPresent | Failed.

Section Script.

(** [JSON.parse] ([None] is a [SyntaxError]) and
    [JSON.stringify(_, null, 2)] are the platform's. *)
Variable parse : jsstring -> completion JsValue.
Variable stringify : JsValue -> jsstring.

(** The body of the [try] block on the parsed document: the text to write,
    if any, and the outcome. *)
Definition update (pkg : JsValue) : option jsstring * outcome :=
  match readFiles pkg with
  | None => (None, Failed)
  | Some files0 =>
      let files := if truthy files0 then files0 else JsArray [] in
      match withFiles pkg files with
      | None => (None, Failed)
      | Some _ =>
          match filesIncludes files with
          | None => (None, Failed)
          | Some true => (None, AlreadyPresent)
          | Some false =>
              match filesPush files with
              | None => (None, Failed)
              | Some files' =>
                  match withFiles pkg files' with
                  | None => (None, Failed)
                  | Some pkg' => (Some (stringify pkg' ++ [10%N]), Added)
                  end
              end
          end
      end
  end.

(** The script on the content of [pkg/package.json] ([None]: the file
    cannot be read): the content afterwards and the outcome. *)
Definition run (file : option jsstring) : option jsstring * outcome :=
  match file with
  | None => (None, Failed)
  | Some content =>
      match parse content with
      | None => (file, Failed)
      | Some pkg =>
          match update pkg with
          | (Some text, out) => (Some text, out)
          | (None, out) => (file, out)
          end
      end
  end.

End Script.

(** Number of occurrences of the entry in a [files] array. *)
Definition countEntry (files : JsValue) : nat :=
  match files with
  | JsArray elems => List.length (filter isEntry elems)
  | _ => 0
  end.

(** The [files] member of a document, [undefined] when it has none. *)
Definition filesOf (pkg : JsValue) : JsValue :=
  match readFiles pkg with Some v => v | None => JsUndefined end.

(** The shape the script is written for: an object whose [files] member is
    missing, falsy or an array. *)
Definition wellShaped (pkg : JsValue) : bool :=
  match pkg with
  | JsObject props =>
      match getProp props filesKey with
      | None => true
      | Some v => negb (truthy v) || isArray v
      end
  | _ => false
  end.

(** The document with the entry pushed, as a run that adds it writes it. *)
Definition pushed (pkg : JsValue) : JsValue :=
  let files := if truthy (filesOf pkg) then filesOf pkg else JsArray [] in
  match filesPush files with
  | Some files' =>
      match withFiles pkg files' with
      | Some pkg' => pkg'
      | None => pkg
      end
  | None => pkg
  end.

End UpdatePackageJson.

(* ================================================================== *)
(** ** Sample package documents *)
(* ================================================================== *)

Module PackageSamples.
Import Js UpdatePackageJson.

Definition quoted (s : jsstring) : jsstring := [dquote] ++ s ++ [dquote].

(** A manifest without [files], and one that lists the entry twice. *)
Definition freshPkg : JsValue :=
  JsObject [(lit "name", JsString (lit "iris-wasm"))].

Definition twicePkg : JsValue :=
  JsObject [(filesKey,
             JsArray [Some (JsString fileToAdd); Some (JsString fileToAdd)])].

Definition freshText : jsstring :=
  lit "{" ++ quoted (lit "name") ++ lit ":" ++ quoted (lit "iris-wasm")
  ++ lit "}".

Definition twiceText : jsstring :=
  lit "{" ++ quoted filesKey ++ lit ":[" ++ quoted fileToAdd ++ lit ","
  ++ quoted fileToAdd ++ lit "]}".

(** The text of [pushed freshPkg], indented by two spaces. *)
Definition addedBody : jsstring :=
  join [10%N]
    [ lit "{";
      lit "  " ++ quoted (lit "name") ++ lit ": " ++ quoted (lit "iris-wasm")
      ++ lit ",";
      lit "  " ++ quoted filesKey ++ lit ": [";
      lit "    " ++ quoted fileToAdd;
      lit "  ]";
      lit "}" ].

(** A document that is an array, before and after a run. *)
Definition arrayText : jsstring := lit "[]".
Definition arrayWritten : jsstring := lit "[]" ++ [10%N].

(** The platform's functions, tabulated on these documents. *)
Definition parse (text : jsstring) : completion JsValue :=
  if str_eqb text freshText then Some freshPkg
  else if str_eqb text twiceText then Some twicePkg
  else if str_eqb text (addedBody ++ [10%N]) then Some (pushed freshPkg)
  else if str_eqb text arrayText then Some (JsArray [])
  else if str_eqb text arrayWritten then Some (JsArray [])
  else None.

Definition stringify (v : JsValue) : jsstring :=
  match v with
  | JsObject [_; _] => addedBody
  | JsArray [] => lit "[]"
  | _ => lit "null"
  end.

End PackageSamples.

(* ================================================================== *)
(** ** The transaction builder *)
(* ================================================================== *)

Module TxBuilder.

(** Modelled from the spec: the data model of the builder (section 3).  The
    builder is implemented in the Rust crates behind the wasm bindings, and
    the JavaScript at hand only calls it.  Amounts are natural numbers;
    digests and keys stand for the number their bytes spell. *)
Definition Amount := N.
Definition Digest := N.
Definition PrivateKey := N.
Definition bytes := list N.

Inductive LockTim : Type :=
| TimCoinbase
| TimAbsolute (height : N)
| TimRelative (duration : N).

(** Modelled from the spec: a [Pkh] primitive, absent from the sources at
    hand.  It names the public-key hashes of its threshold set and asks for
    a signature by one of them; [pkhSingle] is the single-key case. *)
Definition Pkh := list Digest.
Definition pkhSingle (h : Digest) : Pkh := [h].

Inductive LockPrimitive : Type :=
| LpPkh (p : Pkh)
| LpTim (t : LockTim).

Definition SpendCondition := list LockPrimitive.

(** Modelled from the spec: a note (section 3), with the version it
    requires of the settings (section 4.3). *)
Record Note : Type := mkNote {
  noteName : Digest;
  noteValue : Amount;
  noteLock : SpendCondition;
  noteCoinbase : bool;
  noteHeight : N;
  noteVersion : N
}.

(** Modelled from the spec: an output spend condition with its amount
    (section 3); the synthesized change carries no condition of the
    caller. *)
Record Output : Type := mkOutput {
  outDigest : Digest;
  outAmount : Amount;
  outCondition : option SpendCondition
}.

Record TxShape : Type := mkShape { shapeInputs : nat; shapeOutputs : nat }.

Record TxEngineSettings : Type := mkSettings {
  versionTag : N;
  feeFor : TxShape -> Amount
}.

Record Signature : Type := mkSignature { sigPkh : Digest; sigValue : N }.

Record UnsignedTx : Type := mkUnsigned {
  txInputs : list Note;
  txOutputs : list Output;
  txFee : Amount
}.

Record SignedTransaction : Type := mkSigned {
  stId : Digest;
  stTx : UnsignedTx;
  stSignatures : list Signature
}.

Inductive BuilderState : Type := Draft | Composed | Signed | Built.

Inductive Error : Type :=
| EmptyInputs
| InsufficientFunds
| UnspentResidual
| WrongBuilderState
| IncompleteSignatures
| PrematureSpend
| SettingsVersionMismatch.

Record TxBuilder : Type := mkBuilder {
  settings : TxEngineSettings;
  state : BuilderState;
  inputs : list Note;
  outputs : list Output;
  gift : Amount;
  fee : Amount;
  refund : option Digest;
  signatures : list Signature
}.

(** [new TxBuilder(settings)]. *)
Definition newBuilder (s : TxEngineSettings) : TxBuilder :=
  mkBuilder s Draft [] [] 0%N 0%N None [].

Definition unsignedTx (b : TxBuilder) : UnsignedTx :=
  mkUnsigned (inputs b) (outputs b) (fee b).

Definition withState (b : TxBuilder) (s : BuilderState) : TxBuilder :=
  mkBuilder (settings b) s (inputs b) (outputs b) (gift b) (fee b)
            (refund b) (signatures b).

(** The builder signed once more: one signature appended, all else as it
    was. *)
Definition withSignature (b : TxBuilder) (s : Signature) : TxBuilder :=
  mkBuilder (settings b) Signed (inputs b) (outputs b) (gift b) (fee b)
            (refund b) (signatures b ++ [s]).

(** Position of a state in the chain Draft, Composed, Signed, Built. *)
Definition rank (s : BuilderState) : nat :=
  match s with Draft => 0 | Composed => 1 | Signed => 2 | Built => 3 end.

Definition state_eqb (s t : BuilderState) : bool := Nat.eqb (rank s) (rank t).

(** An operation of the builder: an error or a result, and the builder
    afterwards. *)
Definition op (A : Type) : Type := TxBuilder -> (Error + A) * TxBuilder.

Definition ret {A : Type} (a : A) : op A := fun b => (inr a, b).
Definition fail {A : Type} (e : Error) : op A := fun b => (inl e, b).
Definition bind {A B : Type} (m : op A) (k : A -> op B) : op B :=
  fun b =>
    match m b with
    | (inl e, b') => (inl e, b')
    | (inr a, b') => k a b'
    end.
Definition get : op TxBuilder := fun b => (inr b, b).
Definition put (b' : TxBuilder) : op unit := fun _ => (inr tt, b').

Notation "x <- m ;; k" := (bind m (fun x => k))
  (at level 61, m at next level, right associativity).
Notation "m ;;; k" := (bind m (fun _ => k))
  (at level 61, right associativity).

Definition sumValues (ns : list Note) : Amount :=
  fold_right (fun n acc => (noteValue n + acc)%N) 0%N ns.


(** Whether some signature of the set is by a key of the primitive. *)
Definition pkhSatisfied (sigs : list Signature) (p : Pkh) : bool :=
  existsb (fun h => existsb (fun s => N.eqb (sigPkh s) h) sigs) p.

(** Whether the signature set satisfies every [Pkh] primitive of a
    condition (time locks are for the server to judge). *)
Definition conditionSatisfied (sigs : list Signature) (c : SpendCondition)
  : bool :=
  forallb (fun prim =>
             match prim with
             | LpPkh p => pkhSatisfied sigs p
             | LpTim _ => true
             end) c.

(** The fee of a spend: the override, or what the settings ask for a
    transaction of that shape. *)
Definition effectiveFee (s : TxEngineSettings) (ins : list Note)
           (outputConditions : list SpendCondition)
           (feeOverride : option Amount) : Amount :=
  match feeOverride with
  | Some f => f
  | None => feeFor s (mkShape (List.length ins)
                              (List.length outputConditions))
  end.

(** Modelled from the spec: the conservation checks of [simpleSpend]
    (section 4.4).  The inputs must cover gift and fee; what is left over
    must be zero unless change is asked for. *)
Definition conservationError (total gft f : Amount) (includeChange : bool)
  : option Error :=
  if (total <? gft + f)%N then Some InsufficientFunds
  else if negb includeChange && negb (total - gft - f =? 0)%N
       then Some UnspentResidual
       else None.

(** Modelled from the spec: the change of [simpleSpend] (section 4.4), an
    output to the refund digest for the residual when change is asked for
    and the residual is positive. *)
Definition changeOutputs (refundDigest : Digest) (includeChange : bool)
           (residual : Amount) : list Output :=
  if includeChange && (0 <? residual)%N
  then [mkOutput refundDigest residual None]
  else [].

Section Engine.

(** The canonical encoding, key hashing, the signature scheme and the
    digest are collaborators of the builder.  A randomized scheme draws
    [nonce] at each signature; a deterministic one ignores it
    (section 4.5). *)
Variable encode : UnsignedTx -> bytes.
Variable pubkeyHash : PrivateKey -> Digest.
Variable signPayload : PrivateKey -> bytes -> N -> N.
Variable digestOf : bytes -> Digest.

(** What the specification names without fixing it: the height at which
    the transaction is meant to be broadcast and the protocol's minimum
    coinbase age (section 4.2), the version a condition requires, if any
    (section 4.3), how the gift is spread over several output conditions,
    and whether the advisory checks come before the conservation checks
    (sections 4.2 to 4.4 do not order them). *)
Variable broadcastHeight : N.
Variable coinbaseMaturity : N.
Variable conditionVersion : SpendCondition -> option N.
Variable allot : Amount -> list SpendCondition -> list Amount.
Variable policyFirst : bool.

(** Modelled from the spec: whether a time lock of a note can be satisfied
    at the broadcast height (section 4.2).  The coinbase lock asks for the
    protocol's minimum age since the height at which the note was
    created. *)
Definition timReached (n : Note) (t : LockTim) : bool :=
  match t with
  | TimCoinbase => (noteHeight n + coinbaseMaturity <=? broadcastHeight)%N
  | TimAbsolute h => (h <=? broadcastHeight)%N
  | TimRelative d => (noteHeight n + d <=? broadcastHeight)%N
  end.

Definition mature (n : Note) : bool :=
  forallb (fun prim =>
             match prim with
             | LpTim t => timReached n t
             | LpPkh _ => true
             end) (noteLock n).

(** Modelled from the spec: whether the version tag of the settings agrees
    with what the notes and the conditions require (section 4.3). *)
Definition conditionAgrees (s : TxEngineSettings) (c : SpendCondition)
  : bool :=
  match conditionVersion c with
  | Some v => N.eqb v (versionTag s)
  | None => true
  end.

Definition versionsAgree (s : TxEngineSettings) (ins : list Note)
           (outputConditions : list SpendCondition) : bool :=
  forallb (fun n => N.eqb (noteVersion n) (versionTag s)
                    && conditionAgrees s (noteLock n)) ins
  && forallb (conditionAgrees s) outputConditions.

(** Modelled from the spec: the advisory checks at input selection
    (sections 4.2 and 4.3). *)
Definition policyError (s : TxEngineSettings) (ins : list Note)
           (outputConditions : list SpendCondition) : option Error :=
  if negb (versionsAgree s ins outputConditions)
  then Some SettingsVersionMismatch
  else if negb (forallb mature ins) then Some PrematureSpend
  else None.

(** The error reported when both families of checks have one. *)
Definition firstError (policy conservation : option Error) : option Error :=
  if policyFirst
  then match policy with Some e => Some e | None => conservation end
  else match conservation with Some e => Some e | None => policy end.

(** Modelled from the spec: the recipient outputs of [simpleSpend]
    (section 4.4), one for each output condition in the caller's order,
    with the amount allotted to it. *)
Definition primaryOutputs (recipientDigest : Digest) (gft : Amount)
           (outputConditions : list SpendCondition) : list Output :=
  List.map (fun ca => mkOutput recipientDigest (snd ca) (Some (fst ca)))
           (combine outputConditions (allot gft outputConditions)).

(** Modelled from the spec: [TxBuilder.simpleSpend], absent from the sources
    at hand (section 4.4).  Only a draft builder composes; the inputs must
    not be empty; the fee is the override or [feeFor]; the advisory and the
    conservation checks must pass; the outputs are the recipient outputs
    followed by the change. *)
Definition simpleSpend (ins : list Note)
           (outputConditions : list SpendCondition) (recipientDigest : Digest)
           (gft : Amount) (feeOverride : option Amount)
           (refundDigest : Digest) (includeChange : bool) : op unit :=
  b <- get ;;
  if negb (state_eqb (state b) Draft) then fail WrongBuilderState else
  match ins with
  | [] => fail EmptyInputs
  | _ =>
      let f := effectiveFee (settings b) ins outputConditions feeOverride in
      let total := sumValues ins in
      match firstError (policyError (settings b) ins outputConditions)
                       (conservationError total gft f includeChange) with
      | Some e => fail e
      | None =>
          put (mkBuilder (settings b) Composed ins
                 (primaryOutputs recipientDigest gft outputConditions
                  ++ changeOutputs refundDigest includeChange
                                   (total - gft - f)%N)
                 gft f (Some refundDigest) [])
      end
  end.

(** Modelled from the spec: [TxBuilder.sign], absent from the sources at
    hand (section 4.4).  It signs the canonical encoding of the unsigned
    transaction and appends the signature, whatever the key. *)
Definition sign (key : PrivateKey) (nonce : N) : op unit :=
  b <- get ;;
  match state b with
  | Composed | Signed =>
      put (withSignature b
             (mkSignature (pubkeyHash key)
                (signPayload key (encode (unsignedTx b)) nonce)))
  | _ => fail WrongBuilderState
  end.

(** Whether the signatures collected satisfy every input's condition. *)
Definition complete (b : TxBuilder) : bool :=
  forallb (fun n => conditionSatisfied (signatures b) (noteLock n))
          (inputs b).

(** Modelled from the spec: [TxBuilder.build], absent from the sources at
    hand (section 4.4). *)
Definition build : op SignedTransaction :=
  b <- get ;;
  match state b with
  | Signed =>
      if complete b then
        put (withState b Built) ;;;
        ret (mkSigned (digestOf (encode (unsignedTx b))) (unsignedTx b)
                      (signatures b))
      else fail IncompleteSignatures
  | _ => fail WrongBuilderState
  end.

(** The calls a host can make on a builder. *)
Inductive call : Type :=
| CallSimpleSpend (ins : list Note) (outputConditions : list SpendCondition)
                  (recipientDigest : Digest) (gft : Amount)
                  (feeOverride : option Amount) (refundDigest : Digest)
                  (includeChange : bool)
| CallSign (key : PrivateKey) (nonce : N)
| CallBuild.

(** A call on a builder: the error, if any, and the builder afterwards. *)
Definition exec (c : call) (b : TxBuilder) : option Error * TxBuilder :=
  match c with
  | CallSimpleSpend ins ocs r g fo rf ch =>
      match simpleSpend ins ocs r g fo rf ch b with
      | (inl e, b') => (Some e, b')
      | (inr _, b') => (None, b')
      end
  | CallSign key nonce =>
      match sign key nonce b with
      | (inl e, b') => (Some e, b')
      | (inr _, b') => (None, b')
      end
  | CallBuild =>
      match build b with
      | (inl e, b') => (Some e, b')
      | (inr _, b') => (None, b')
      end
  end.

(** The reading of the life cycle under which every call either fails and
    leaves the builder as it was, or moves it one state forward. *)
Definition strictlyAdvancing : Prop :=
  forall (c : call) (b : TxBuilder),
    (fst (exec c b) <> None /\ snd (exec c b) = b)
    \/ (fst (exec c b) = None
        /\ rank (state (snd (exec c b))) = S (rank (state b))).

End Engine.

End TxBuilder.

(* ================================================================== *)
(** ** Sample collaborators and data for the builder *)
(* ================================================================== *)

Module TxSamples.
Import TxBuilder.
Local Open Scope N_scope.

(** A stand-in encoding: input names, then output digests and amounts,
    then the fee. *)
Definition encode (tx : UnsignedTx) : bytes :=
  List.map noteName (txInputs tx)
  ++ flat_map (fun o => [outDigest o; outAmount o]) (txOutputs tx)
  ++ [txFee tx].

Definition pubkeyHash (k : PrivateKey) : Digest := (k * 2 + 1000)%N.

(** A stand-in randomized scheme: the nonce enters the signature. *)
Definition signPayload (k : PrivateKey) (payload : bytes) (nonce : N) : N :=
  fold_left N.add payload k + nonce.

Definition digestOf (payload : bytes) : Digest :=
  fold_left (fun acc x => (acc * 31 + x)%N) payload 7%N.

(** A broadcast at height 1000 under a coinbase age of 100; conditions
    require no version; the whole gift goes to the first output
    condition. *)
Definition broadcastHeight : N := 1000.
Definition coinbaseMaturity : N := 100.
Definition conditionVersion (c : SpendCondition) : option N := None.

Definition allotFirst (g : Amount) (ocs : list SpendCondition)
  : list Amount :=
  match ocs with
  | [] => []
  | _ :: rest => g :: List.map (fun _ => 0) rest
  end.

(** [simpleSpend] under these collaborators, the order of the checks left
    open. *)
Definition spend (policyFirst : bool) :=
  simpleSpend broadcastHeight coinbaseMaturity conditionVersion allotFirst
              policyFirst.

(** Settings that ask a flat fee per input and output. *)
Definition flatSettings : TxEngineSettings :=
  mkSettings 1 (fun sh =>
                  10 * N.of_nat (shapeInputs sh + shapeOutputs sh)%nat).

Definition ownerKey : PrivateKey := 5%N.
Definition strangerKey : PrivateKey := 6%N.

Definition recipient : Digest := 77%N.
Definition refundTo : Digest := 88%N.

(** A condition locked to the owner's key, and its time-locked form. *)
Definition ownerCondition : SpendCondition :=
  [LpPkh (pkhSingle (pubkeyHash ownerKey)); LpTim TimCoinbase].

Definition million : Note := mkNote 1 1000000 ownerCondition false 10 1.


(** The builder of the spending scenario, composed. *)
Definition composed : TxBuilder :=
  snd (spend true [million] [ownerCondition] recipient 600000
             (Some 50000%N) refundTo true (newBuilder flatSettings)).

Definition signedBy (k : PrivateKey) : TxBuilder :=
  snd (sign encode pubkeyHash signPayload k 0 composed).

Definition built : TxBuilder :=
  snd (build encode digestOf (signedBy ownerKey)).

End TxSamples.

(* ================================================================== *)
(** ** The shape of a guard file *)
(* ================================================================== *)

Module GuardFile.
Import Js FilterGuards.

(** A guard file as the filter reads it: lines to keep, and the functions
    to remove, each a declaration line followed by the rest of its lines. *)
Inductive block : Type :=
| Keep (line : jsstring)
| Removed (decl : jsstring) (body : list jsstring).

Definition blockLines (b : block) : list jsstring :=
  match b with
  | Keep line => [line]
  | Removed decl body => decl :: body
  end.

Definition keptLines (b : block) : list jsstring :=
  match b with
  | Keep line => [line]
  | Removed _ _ => []
  end.

(** The line declares one of the functions to remove. *)
Definition declaresRemoved (line : jsstring) : bool :=
  match matchDecl guardDecl guardsToRemove line with
  | Some _ => true
  | None =>
      match matchDecl excludeDecl excludes line with
      | Some _ => true
      | None => false
      end
  end.

(** Starting from the brace count [count] of the declaration line, the
    count returns to zero at the last line of [body] and not before. *)
Fixpoint closes (count : Z) (body : list jsstring) : bool :=
  match body with
  | [] => false
  | line :: rest =>
      let n := countBraces count line in
      match rest with
      | [] => Z.eqb n 0
      | _ => negb (Z.eqb n 0) && closes n rest
      end
  end.

(** A kept line declares no function to remove; a removed function opens
    with such a declaration, declares no other inside, and its braces close
    at its last line, after the declaration line. *)
Definition wellFormed (b : block) : bool :=
  match b with
  | Keep line => negb (declaresRemoved line)
  | Removed decl body =>
      declaresRemoved decl
      && forallb (fun l => negb (declaresRemoved l)) body
      && closes (countBraces 0 decl) body
  end.

Definition fileLines (bs : list block) : list jsstring :=
  flat_map blockLines bs.

Definition fileKept (bs : list block) : list jsstring :=
  flat_map keptLines bs.

(** The text of a file. *)
Definition fileText (bs : list block) : jsstring :=
  join [newline] (fileLines bs).

(** No line break inside a line. *)
Definition oneLine (line : jsstring) : bool :=
  forallb (fun c => negb (N.eqb c newline)) line.

Definition blockOneLine (b : block) : bool :=
  forallb oneLine (blockLines b).

(** The occurrence of [p] right after [a] in [s] is the first one: none
    starts inside [a]. *)
Definition firstAt (p a s : jsstring) : Prop :=
  forall i, i < List.length a -> startsWith (skipn i s) p = false.

(** All code units are white space. *)
Definition blank (s : jsstring) : bool := forallb isWhiteSpace s.

(** The string opens with a code unit that is not white space. *)
Definition headInk (s : jsstring) : bool :=
  match s with
  | c :: _ => negb (isWhiteSpace c)
  | [] => false
  end.

(** The two letters with which both texts of the second rewrite open. *)
Definition letterF : N := 102%N.
Definition letterR : N := 114%N.

(** A text that is too short to tell the two rewrites apart, or does not
    open with their two letters. *)
Definition safeHere (q : jsstring) : bool :=
  match q with
  | c1 :: c2 :: _ :: _ => negb (N.eqb c1 letterF && N.eqb c2 letterR)
  | _ => true
  end.

(** Every proper tail of the text is safe. *)
Fixpoint tailsSafe (q : jsstring) : bool :=
  match q with
  | [] => true
  | _ :: q' => safeHere q' && tailsSafe q'
  end.

(** A declaration text: it opens with the letter e, ends with ink and all
    its tails are safe. *)
Definition declText (q : jsstring) : Prop :=
  (exists q', q = 101%N :: q') /\ headInk (rev q) = true
  /\ tailsSafe q = true.

End GuardFile.

(* ================================================================== *)
(** ** Sample guard files *)
(* ================================================================== *)

Module GuardSamples.
Import Js FilterGuards GuardFile.

Definition importLine : jsstring :=
  lit "import { Digest, ZMap } " ++ fromPat ++ lit ";".

(** A generated guard file: an import, a guard to keep, and two guards to
    remove, one from each list. *)
Definition generated : list block :=
  [ Keep importLine;
    Keep (lit "");
    Keep (lit "export function isDigest(obj: unknown): obj is Digest {");
    Keep (lit "    return typeof obj === 'string';");
    Keep (lit "}");
    Removed (lit "export function isZMap(obj: unknown): obj is ZMap {")
            [ lit "    if (obj) { return true; }";
              lit "    return false;";
              lit "}" ];
    Removed (lit "export function isExtendedKey(obj: unknown): obj is Key {")
            [ lit "    return true;";
              lit "}" ];
    Keep (lit "// end") ].

(** A guard to remove whose signature runs over three lines. *)
Definition longSignature : jsstring :=
  join [newline]
    [ lit "export function isZBase(";
      lit "    obj: unknown,";
      lit "    isE: unknown): obj is ZBase {";
      lit "    return Array.isArray(obj);";
      lit "}" ].

(** Two import clauses on one line. *)
Definition twoImports : jsstring :=
  lit "import { A } " ++ fromPat ++ lit "; import { B } " ++ fromPat
  ++ lit ";".

End GuardSamples.

(* ================================================================== *)
(** ** Values for the guards *)
(* ================================================================== *)

Module GuardValues.
Import Js Guards.

(** What a slot of an array holds for a reader: a hole reads as
    [undefined]. *)
Definition slot (e : option JsValue) : JsValue :=
  match e with
  | Some v => v
  | None => JsUndefined
  end.

(** The index of a slot, as a callback receives it. *)
Definition indexAt (i : nat) : JsValue := JsNumber (Z.of_nat i).

(** Two guards of primitive types. *)
Definition isString : guard :=
  fun x => match x with JsString _ => Some true | _ => Some false end.

Definition isNumber : guard :=
  fun x => match x with JsNumber _ => Some true | _ => Some false end.

(** The function [(x, i) => i === undefined]. *)
Definition indexMissing : callback :=
  fun _ i _ => match i with JsUndefined => Some true | _ => Some false end.

(** A guard that throws on strings and accepts booleans only. *)
Definition boolOrThrow : callback :=
  fun u _ _ => match u with
               | JsBool _ => Some true
               | JsString _ => None
               | _ => Some false
               end.

(** An entry with a string key and a number value. *)
Definition stringNumber : JsValue :=
  JsArray [Some (JsString (lit "k")); Some (JsNumber 1)].

End GuardValues.

(* ================================================================== *)
(** ** The type definition patch *)
(* ================================================================== *)

Module PatchDts.
Import Js.

(** The script that patches [iris_wasm.d.ts] before the guards are
    generated (the build runs it as [patch-dts.js]). *)

(** The template literal [missingTypes], line by line. *)
Definition missingTypesLines : list jsstring :=
  [ lit "";
    lit "export type TxId = string;";
    lit "export type BlockHeight = number;";
    lit "export type LockTim = Timelock;";
    lit "" ].

Definition missingTypes : jsstring := join [10%N] missingTypesLines.

(** The text the script looks for before it appends. *)
Definition marker : jsstring := lit "export type TxId".

(** How a run ends: one of the two log lines, or [process.exit(1)]. *)
Inductive outcome : Type := Appended | Present | Failed.

(** The script on the content of the file ([None]: it cannot be read): the
    content afterwards and the outcome. *)
Definition run (file : option jsstring) : option jsstring * outcome :=
  match file with
  | None => (None, Failed)
  | Some content =>
      if negb (includes content marker)
      then (Some (content ++ missingTypes), Appended)
      else (file, Present)
  end.

End PatchDts.

(* ================================================================== *)
(** ** More shapes of guard files *)
(* ================================================================== *)

Module GuardFileMore.
Import Js FilterGuards GuardFile.

(** [kept] is [all] with some lines left out, the order unchanged. *)
Inductive subseq : list jsstring -> list jsstring -> Prop :=
| subseq_nil : subseq [] []
| subseq_drop (line : jsstring) (kept all : list jsstring) :
    subseq kept all -> subseq kept (line :: all)
| subseq_keep (line : jsstring) (kept all : list jsstring) :
    subseq kept all -> subseq (line :: kept) (line :: all).

(** Starting from the brace count [count] of the declaration line, the
    count is zero at no line of [body]. *)
Fixpoint staysOpen (count : Z) (body : list jsstring) : bool :=
  match body with
  | [] => true
  | line :: rest =>
      negb (Z.eqb (countBraces count line) 0)
      && staysOpen (countBraces count line) rest
  end.

(** A file of lines that are all kept. *)
Definition keepAll (lines : list jsstring) : list block :=
  List.map Keep lines.

(** A guard to remove whose closing brace is missing. *)
Definition unclosedDecl : jsstring :=
  lit "export function isZSet(obj: unknown): obj is ZSet {".

Definition unclosedBody : list jsstring :=
  [ lit "    if (obj) {";
    lit "        return true;";
    lit "// end" ].

(** A guard file with nothing to remove and nothing to rewrite. *)
Definition plainText : jsstring :=
  join [newline]
    [ lit "export function isDigest(obj: unknown): obj is Digest {";
      lit "    return typeof obj === 'string';";
      lit "}";
      lit "" ].

End GuardFileMore.

(* ================================================================== *)
(** ** More sample package documents *)
(* ================================================================== *)

Module PackageSamplesMore.
Import Js UpdatePackageJson PackageSamples.

(** A manifest whose [files] member is a string that holds the entry as a
    part of a longer name. *)
Definition stringFilesPkg : JsValue :=
  JsObject [(lit "name", JsString (lit "iris-wasm"));
            (filesKey, JsString (fileToAdd ++ lit ".bak"))].

(** A manifest with a license and one listed file. *)
Definition listedPkg : JsValue :=
  JsObject [(lit "name", JsString (lit "iris-wasm"));
            (filesKey, JsArray [Some (JsString (lit "iris_wasm.js"))]);
            (lit "license", JsString (lit "MIT"))].

End PackageSamplesMore.

(* ================================================================== *)
(** ** Facts about the generic guards *)
(* ================================================================== *)

Module GuardsFacts.
Import Js Guards GuardValues.

Lemma every_true_iff (f : guard) (elems : list (option JsValue)) :
  every f elems = Some true <->
  Forall (fun v => f v = Some true) (present elems).
Proof.
  induction elems as [|[v|] rest IH]; simpl.
  - split; [constructor | reflexivity].
  - destruct (f v) as [[|]|] eqn:E.
    + rewrite IH. split.
      * intro H. constructor; assumption.
      * intro H. inversion H; assumption.
    + split; [discriminate|]. intro H. inversion H; congruence.
    + split; [discriminate|]. intro H. inversion H; congruence.
  - exact IH.
Qed.

Lemma isZMapEntry_true_iff (obj : JsValue) (isK isV : guard) :
  isZMapEntry obj isK isV = Some true <->
  exists elems, obj = JsArray elems /\ List.length elems = 2
                /\ isK (index elems 0) = Some true
                /\ isV (index elems 1) = Some true.
Proof.
  split.
  - destruct obj; simpl; try discriminate.
    intro H. exists elems. split; [reflexivity|].
    destruct (Nat.eqb (List.length elems) 2) eqn:L; simpl in H;
      [|discriminate].
    apply Nat.eqb_eq in L. split; [exact L|].
    destruct (isK (index elems 0)) as [[|]|]; simpl in H;
      try discriminate.
    split; [reflexivity | exact H].
  - intros (elems & -> & L & HK & HV). simpl.
    rewrite L, HK, HV. reflexivity.
Qed.

(** C9. [isZMapEntry] answers [true] exactly on the arrays of two slots
    whose first passes [isK] and whose second passes [isV], a hole being
    read as [undefined]; [isZMap] answers [true] exactly on arrays all of
    whose elements pass [isZMapEntry]; on a value that is not an array both
    answer [false] without calling the guards given, so they cannot throw
    there; and the empty array is a map. *)
Theorem isZMap_exact (obj : JsValue) (isK isV : guard) :
  (isZMapEntry obj isK isV = Some true <->
   exists e0 e1, obj = JsArray [e0; e1]
                 /\ isK (slot e0) = Some true
                 /\ isV (slot e1) = Some true)
  /\ (forall k v,
         isZMapEntry (JsArray [Some k; Some v]) isK isV = Some true <->
         isK k = Some true /\ isV v = Some true)
  /\ (isZMap obj isK isV = Some true <->
      exists elems, obj = JsArray elems
                    /\ Forall (fun e => isZMapEntry e isK isV = Some true)
                              (present elems))
  /\ (isArray obj = false ->
      isZMapEntry obj isK isV = Some false
      /\ isZMap obj isK isV = Some false)
  /\ isZMap (JsArray []) isK isV = Some true.
Proof.
  assert (P : forall o,
             isZMapEntry o isK isV = Some true <->
             exists e0 e1, o = JsArray [e0; e1]
                           /\ isK (slot e0) = Some true
                           /\ isV (slot e1) = Some true).
  { intro o. rewrite isZMapEntry_true_iff. split.
    - intros (elems & -> & L & HK & HV).
      destruct elems as [|e0 [|e1 [|e2 elems]]]; try discriminate.
      exists e0, e1. split; [reflexivity|].
      destruct e0, e1; auto.
    - intros (e0 & e1 & -> & HK & HV). exists [e0; e1].
      split; [reflexivity|]. split; [reflexivity|].
      destruct e0, e1; auto. }
  split; [apply P|]. split.
  - intros k v. rewrite P. split.
    + intros (e0 & e1 & E & HK & HV). injection E as <- <-. auto.
    + intros [HK HV]. exists (Some k), (Some v). auto.
  - split; [|split; [|reflexivity]].
    + split.
      * destruct obj; simpl; try discriminate.
        intro H. exists elems. split; [reflexivity|].
        apply every_true_iff in H. exact H.
      * intros (elems & -> & H). simpl. apply every_true_iff. exact H.
    + destruct obj; simpl; try discriminate; intros _; split; reflexivity.
Qed.

(** An entry with a string key and a number value passes the string and
    number guards in this order and not in the other; a string is no entry
    and no map, even under guards that throw. *)
Lemma isZMap_exact_witness :
  isZMapEntry stringNumber isString isNumber = Some true
  /\ isZMapEntry stringNumber isNumber isString <> Some true
  /\ isArray (JsString (lit "k")) = false
  /\ isZMapEntry (JsString (lit "k")) (fun _ => None) (fun _ => None)
     = Some false
  /\ isZMap (JsString (lit "k")) (fun _ => None) (fun _ => None)
     = Some false.
Proof.
  split.
  - apply (proj1 (proj2 (isZMap_exact stringNumber isString isNumber))).
    split; reflexivity.
  - split.
    + intro H.
      apply (proj1 (proj2 (isZMap_exact stringNumber isNumber isString)))
        in H.
      destruct H as [H _]. discriminate.
    + split; [reflexivity|].
      exact (proj1 (proj2 (proj2 (proj2
               (isZMap_exact (JsString (lit "k")) (fun _ => None)
                             (fun _ => None))))) eq_refl).
Defined.

End GuardsFacts.

(* ================================================================== *)
(** ** Facts about the transaction builder *)
(* ================================================================== *)

Module TxBuilderFacts.
Import TxBuilder.

Lemma state_eqb_eq (s t : BuilderState) : state_eqb s t = true <-> s = t.
Proof. destruct s, t; cbv; split; intro H; congruence. Qed.

Lemma pkhSatisfied_true_iff (sigs : list Signature) (p : Pkh) :
  pkhSatisfied sigs p = true <->
  exists h s, In h p /\ In s sigs /\ sigPkh s = h.
Proof.
  unfold pkhSatisfied. rewrite existsb_exists. split.
  - intros (h & Hh & Hex). apply existsb_exists in Hex.
    destruct Hex as (s & Hs & E). apply N.eqb_eq in E.
    exists h, s. auto.
  - intros (h & s & Hh & Hs & E). exists h. split; [exact Hh|].
    apply existsb_exists. exists s. split; [exact Hs|].
    apply N.eqb_eq. exact E.
Qed.

Lemma pkhSatisfied_false_iff (sigs : list Signature) (p : Pkh) :
  pkhSatisfied sigs p = false <->
  forall h s, In h p -> In s sigs -> sigPkh s <> h.
Proof.
  split.
  - intros H h s Hh Hs E.
    assert (T : pkhSatisfied sigs p = true)
      by (apply pkhSatisfied_true_iff; exists h, s; auto).
    congruence.
  - intro H. destruct (pkhSatisfied sigs p) eqn:E; [|reflexivity].
    apply pkhSatisfied_true_iff in E. destruct E as (h & s & Hh & Hs & E).
    exfalso. exact (H h s Hh Hs E).
Qed.

(** Satisfaction depends on the set of signatures only. *)
Lemma pkhSatisfied_same_set (sigs1 sigs2 : list Signature) (p : Pkh) :
  (forall s, In s sigs1 <-> In s sigs2) ->
  pkhSatisfied sigs1 p = pkhSatisfied sigs2 p.
Proof.
  intro H. apply eq_true_iff_eq. rewrite !pkhSatisfied_true_iff.
  split; intros (h & s & Hh & Hs & E); exists h, s;
    (split; [exact Hh | split; [apply H; exact Hs | exact E]]).
Qed.

Lemma conditionSatisfied_same_set (sigs1 sigs2 : list Signature)
      (c : SpendCondition) :
  (forall s, In s sigs1 <-> In s sigs2) ->
  conditionSatisfied sigs1 c = conditionSatisfied sigs2 c.
Proof.
  intro H. unfold conditionSatisfied.
  induction c as [|prim c IH]; simpl; [reflexivity|].
  rewrite IH. f_equal.
  destruct prim as [p|t]; [apply pkhSatisfied_same_set; exact H|].
  reflexivity.
Qed.

Lemma inputs_same_set (sigs1 sigs2 : list Signature) (ns : list Note) :
  (forall s, In s sigs1 <-> In s sigs2) ->
  forallb (fun n => conditionSatisfied sigs1 (noteLock n)) ns
  = forallb (fun n => conditionSatisfied sigs2 (noteLock n)) ns.
Proof.
  intro H. induction ns as [|n ns IH]; simpl; [reflexivity|].
  rewrite IH. f_equal. apply conditionSatisfied_same_set. exact H.
Qed.

Lemma conditionSatisfied_false_iff (sigs : list Signature)
      (c : SpendCondition) :
  conditionSatisfied sigs c = false <->
  exists p, In (LpPkh p) c /\ pkhSatisfied sigs p = false.
Proof.
  unfold conditionSatisfied. induction c as [|prim c IH]; simpl.
  - split; [discriminate | intros (p & [] & _)].
  - rewrite andb_false_iff, IH. split.
    + intros [H | (p & Hp & H)].
      * destruct prim as [p|t]; [|discriminate]. exists p. auto.
      * exists p. auto.
    + intros (p & [E | Hp] & H).
      * subst prim. left. exact H.
      * right. exists p. auto.
Qed.








Section Engine.

Variable encode : UnsignedTx -> bytes.
Variable pubkeyHash : PrivateKey -> Digest.
Variable signPayload : PrivateKey -> bytes -> N -> N.
Variable digestOf : bytes -> Digest.
Variable broadcastHeight : N.
Variable coinbaseMaturity : N.
Variable conditionVersion : SpendCondition -> option N.
Variable allot : Amount -> list SpendCondition -> list Amount.
Variable policyFirst : bool.

Local Abbreviation policyError :=
  (policyError broadcastHeight coinbaseMaturity conditionVersion).
Local Abbreviation primaryOutputs := (primaryOutputs allot).
Local Abbreviation simpleSpend :=
  (simpleSpend broadcastHeight coinbaseMaturity conditionVersion allot
               policyFirst).
Local Abbreviation sign := (sign encode pubkeyHash signPayload).
Local Abbreviation build := (build encode digestOf).
Local Abbreviation exec :=
  (exec encode pubkeyHash signPayload digestOf broadcastHeight
        coinbaseMaturity conditionVersion allot policyFirst).

Lemma firstError_none (p c : option Error) :
  firstError policyFirst p c = None -> p = None /\ c = None.
Proof.
  unfold firstError. destruct policyFirst, p, c; intro H;
    try discriminate; auto.
Qed.


(** What [simpleSpend] does on a draft builder with inputs. *)
Lemma simpleSpend_draft ins ocs r g fo rf ch b :
  state b = Draft -> ins <> [] ->
  simpleSpend ins ocs r g fo rf ch b
  = match firstError policyFirst (policyError (settings b) ins ocs)
            (conservationError (sumValues ins) g
               (effectiveFee (settings b) ins ocs fo) ch) with
    | Some e => (inl e, b)
    | None =>
        (inr tt,
         mkBuilder (settings b) Composed ins
           (primaryOutputs r g ocs
            ++ changeOutputs rf ch
                 (sumValues ins - g
                  - effectiveFee (settings b) ins ocs fo)%N)
           g (effectiveFee (settings b) ins ocs fo) (Some rf) [])
    end.
Proof.
  intros S I. unfold TxBuilder.simpleSpend, bind, get, put, fail.
  rewrite S. simpl. destruct ins as [|n ins]; [congruence|].
  destruct (firstError _ _ _); reflexivity.
Qed.

(** What a successful [simpleSpend] leaves in the builder. *)
Lemma simpleSpend_success ins ocs r g fo rf ch b b' :
  simpleSpend ins ocs r g fo rf ch b = (inr tt, b') ->
  state b = Draft /\ ins <> []
  /\ policyError (settings b) ins ocs = None
  /\ conservationError (sumValues ins) g
       (effectiveFee (settings b) ins ocs fo) ch = None
  /\ b' = mkBuilder (settings b) Composed ins
            (primaryOutputs r g ocs
             ++ changeOutputs rf ch
                  (sumValues ins - g
                   - effectiveFee (settings b) ins ocs fo)%N)
            g (effectiveFee (settings b) ins ocs fo) (Some rf) [].
Proof.
  intro H.
  assert (S : state b = Draft).
  { unfold TxBuilder.simpleSpend, bind, get, put, fail in H.
    destruct (state_eqb (state b) Draft) eqn:S; simpl in H;
      [|discriminate].
    apply state_eqb_eq. exact S. }
  assert (I : ins <> []).
  { intros ->. unfold TxBuilder.simpleSpend, bind, get, put, fail in H.
    rewrite S in H. discriminate. }
  rewrite (simpleSpend_draft ins ocs r g fo rf ch b S I) in H.
  destruct (firstError _ _ _) eqn:F; [discriminate|].
  apply firstError_none in F. destruct F as [P C].
  injection H as <-. auto.
Qed.

(** A failed [simpleSpend] leaves the builder as it was. *)
Lemma simpleSpend_failure ins ocs r g fo rf ch b e b' :
  simpleSpend ins ocs r g fo rf ch b = (inl e, b') -> b' = b.
Proof.
  unfold TxBuilder.simpleSpend, bind, get, put, fail.
  destruct (state_eqb (state b) Draft); simpl; [|congruence].
  destruct ins as [|n ins]; [congruence|].
  destruct (firstError _ _ _); [congruence | discriminate].
Qed.



Lemma complete_false_iff (b : TxBuilder) :
  complete b = false <->
  exists n p, In n (inputs b) /\ In (LpPkh p) (noteLock n)
              /\ pkhSatisfied (signatures b) p = false.
Proof.
  unfold complete. induction (inputs b) as [|n ns IH]; simpl.
  - split; [discriminate | intros (n & p & [] & _)].
  - rewrite andb_false_iff, IH, conditionSatisfied_false_iff. split.
    + intros [(p & Hp & H) | (m & p & Hm & Hp & H)].
      * exists n, p. auto.
      * exists m, p. auto.
    + intros (m & p & [E | Hm] & Hp & H).
      * subst m. left. exists p. auto.
      * right. exists m, p. auto.
Qed.

(** C3. A call either fails and leaves the builder as it was, or moves it
    one state forward along Draft, Composed, Signed, Built, or is a [sign]
    on a signed builder, which then is the builder it was with one
    signature more, by the key given, and nothing else changed; [sign]
    fails with [WrongBuilderState] on a draft and on a built builder; and a
    built builder refuses every call and stays as it is. *)
Theorem lifecycle_forward (c : call) (b : TxBuilder) :
  ((fst (exec c b) <> None /\ snd (exec c b) = b)
   \/ (fst (exec c b) = None
       /\ rank (state (snd (exec c b))) = S (rank (state b)))
   \/ (fst (exec c b) = None /\ state b = Signed
       /\ exists key nonce,
           c = CallSign key nonce
           /\ snd (exec c b)
              = withSignature b
                  (mkSignature (pubkeyHash key)
                     (signPayload key (encode (unsignedTx b)) nonce))
           /\ state (snd (exec c b)) = state b
           /\ unsignedTx (snd (exec c b)) = unsignedTx b
           /\ settings (snd (exec c b)) = settings b
           /\ gift (snd (exec c b)) = gift b
           /\ refund (snd (exec c b)) = refund b
           /\ signatures (snd (exec c b))
              = signatures b
                  ++ [mkSignature (pubkeyHash key)
                        (signPayload key (encode (unsignedTx b)) nonce)]))
  /\ (forall key nonce, state b = Draft \/ state b = Built ->
                        exec (CallSign key nonce) b
                        = (Some WrongBuilderState, b))
  /\ (state b = Built -> exec c b = (Some WrongBuilderState, b)).
Proof.
  split; [|split].
  - destruct c as [ins ocs r g fo rf ch | key nonce |]; simpl.
    + destruct (simpleSpend ins ocs r g fo rf ch b) as [[e|[]] b'] eqn:E;
        simpl.
      * left. split; [discriminate|].
        exact (simpleSpend_failure _ _ _ _ _ _ _ _ _ _ E).
      * right. left. split; [reflexivity|].
        apply simpleSpend_success in E.
        destruct E as (S & _ & _ & _ & ->). rewrite S. reflexivity.
    + unfold TxBuilder.sign, bind, get, put, fail.
      destruct (state b) eqn:S; simpl.
      * left. split; [discriminate | reflexivity].
      * right. left. split; reflexivity.
      * right. right. split; [reflexivity|]. split; [reflexivity|].
        exists key, nonce. repeat split.
      * left. split; [discriminate | reflexivity].
    + unfold TxBuilder.build, bind, get, put, fail, ret.
      destruct (state b) eqn:S; simpl;
        try (left; split; [discriminate | reflexivity]).
      destruct (complete b); simpl.
      * right. left. split; reflexivity.
      * left. split; [discriminate | reflexivity].
  - intros key nonce [S | S]; simpl;
      unfold TxBuilder.sign, bind, get, put, fail; rewrite S; reflexivity.
  - intro S. destruct c as [ins ocs r g fo rf ch | key nonce |]; simpl.
    + unfold TxBuilder.simpleSpend, bind, get, put, fail. rewrite S.
      reflexivity.
    + unfold TxBuilder.sign, bind, get, put, fail. rewrite S. reflexivity.
    + unfold TxBuilder.build, bind, get, put, fail. rewrite S. reflexivity.
Qed.

(** C4. On a signed builder [build] fails with [IncompleteSignatures]
    exactly when some input's condition holds a [Pkh] primitive none of
    whose keys has signed; otherwise it returns the transaction, whose id is
    the digest of the canonical encoding, and the builder is built. *)
Theorem build_incomplete_iff (b : TxBuilder) :
  state b = Signed ->
  (fst (build b) = inl IncompleteSignatures <->
   exists n p, In n (inputs b) /\ In (LpPkh p) (noteLock n)
               /\ forall h s, In h p -> In s (signatures b) ->
                              sigPkh s <> h)
  /\ (fst (build b) <> inl IncompleteSignatures ->
      build b = (inr (mkSigned (digestOf (encode (unsignedTx b)))
                               (unsignedTx b) (signatures b)),
                 withState b Built)
      /\ state (snd (build b)) = Built).
Proof.
  intro S. unfold TxBuilder.build, bind, get, put, fail, ret.
  rewrite S. simpl. destruct (complete b) eqn:C; simpl.
  - split.
    + split; [discriminate|].
      intros (n & p & Hn & Hp & H). apply pkhSatisfied_false_iff in H.
      assert (F : complete b = false)
        by (apply complete_false_iff; exists n, p; auto).
      congruence.
    + intros _. split; reflexivity.
  - split.
    + split; [|reflexivity]. intros _.
      apply complete_false_iff in C. destruct C as (n & p & Hn & Hp & H).
      exists n, p. split; [exact Hn|]. split; [exact Hp|].
      apply pkhSatisfied_false_iff. exact H.
    + intro H. exfalso. apply H. reflexivity.
Qed.


End Engine.

Import TxSamples.
Local Open Scope N_scope.

Local Abbreviation execS :=
  (exec encode pubkeyHash signPayload digestOf broadcastHeight
        coinbaseMaturity conditionVersion allotFirst true).
Local Abbreviation signS := (sign encode pubkeyHash signPayload).






(** Signing a signed builder succeeds and leaves it signed: the call
    neither fails nor moves the builder forward. *)
Lemma sign_on_signed_stays :
  ~ strictlyAdvancing encode pubkeyHash signPayload digestOf
      broadcastHeight coinbaseMaturity conditionVersion allotFirst true.
Proof.
  intro H. specialize (H (CallSign strangerKey 0) (signedBy ownerKey)).
  destruct H as [[H _] | [_ H]].
  - apply H. reflexivity.
  - vm_compute in H. discriminate.
Qed.

(** A built builder refuses [build]; a signed builder signed again is the
    same builder with the stranger's signature appended. *)
Lemma lifecycle_forward_witness :
  state built = Built
  /\ execS CallBuild built = (Some WrongBuilderState, built)
  /\ execS (CallSign strangerKey 0) built = (Some WrongBuilderState, built)
  /\ signatures (snd (execS (CallSign strangerKey 0) (signedBy ownerKey)))
     = signatures (signedBy ownerKey)
         ++ [mkSignature (pubkeyHash strangerKey)
               (signPayload strangerKey
                  (encode (unsignedTx (signedBy ownerKey))) 0)].
Proof.
  split; [reflexivity|]. split; [|split].
  - exact (proj2 (proj2 (lifecycle_forward encode pubkeyHash signPayload
                           digestOf broadcastHeight coinbaseMaturity
                           conditionVersion allotFirst true
                           CallBuild built)) eq_refl).
  - exact (proj1 (proj2 (lifecycle_forward encode pubkeyHash signPayload
                           digestOf broadcastHeight coinbaseMaturity
                           conditionVersion allotFirst true
                           CallBuild built))
                 strangerKey 0 (or_intror eq_refl)).
  - destruct (proj1 (lifecycle_forward encode pubkeyHash signPayload
                       digestOf broadcastHeight coinbaseMaturity
                       conditionVersion allotFirst true
                       (CallSign strangerKey 0) (signedBy ownerKey)))
      as [[F _] | [[_ R] | (_ & _ & key & nonce & C & _ & _ & _ & _ & _
                            & _ & G)]].
    + exfalso. apply F. reflexivity.
    + vm_compute in R. discriminate.
    + injection C as <- <-. exact G.
Defined.

(** A single-key condition: signed by its key the builder builds, signed
    by a stranger only it does not. *)
Lemma build_incomplete_iff_witness :
  state (signedBy ownerKey) = Signed
  /\ state (snd (build encode digestOf (signedBy ownerKey))) = Built
  /\ fst (build encode digestOf (signedBy strangerKey))
     = inl IncompleteSignatures.
Proof.
  split; [reflexivity|]. split.
  - apply (proj2 (build_incomplete_iff encode digestOf
                    (signedBy ownerKey) eq_refl)).
    vm_compute. discriminate.
  - apply (proj1 (build_incomplete_iff encode digestOf
                    (signedBy strangerKey) eq_refl)).
    exists million, (pkhSingle (pubkeyHash ownerKey)).
    split; [left; reflexivity|]. split; [left; reflexivity|].
    intros h s [<- | []] [<- | []]. vm_compute. discriminate.
Defined.



End TxBuilderFacts.

(* ================================================================== *)
(** ** Facts about update-package-json.js *)
(* ================================================================== *)

Module UpdatePackageJsonFacts.
Import Js UpdatePackageJson.

Lemma str_eqb_refl (s : jsstring) : str_eqb s s = true.
Proof.
  induction s as [|c s IH]; simpl; [reflexivity|].
  rewrite N.eqb_refl. exact IH.
Qed.

Lemma getProp_setProp (props : list (jsstring * JsValue)) (key : jsstring)
      (v : JsValue) :
  getProp (setProp props key v) key = Some v.
Proof.
  induction props as [|[k w] rest IH]; simpl.
  - rewrite str_eqb_refl. reflexivity.
  - destruct (str_eqb k key) eqn:E; simpl; rewrite E; [reflexivity|].
    exact IH.
Qed.

Lemma existsb_filter (elems : list (option JsValue)) :
  existsb isEntry elems
  = negb (Nat.eqb (List.length (filter isEntry elems)) 0).
Proof.
  induction elems as [|e elems IH]; simpl; [reflexivity|].
  destruct (isEntry e); simpl; [reflexivity | exact IH].
Qed.

Lemma count_push (elems : list (option JsValue)) :
  List.length (filter isEntry (elems ++ [Some (JsString fileToAdd)]))
  = S (List.length (filter isEntry elems)).
Proof.
  rewrite filter_app, length_app.
  change (filter isEntry [Some (JsString fileToAdd)])
    with (if str_eqb fileToAdd fileToAdd
          then [Some (JsString fileToAdd)] else []).
  rewrite str_eqb_refl. simpl. lia.
Qed.

(** On a well-shaped document the script works on an array: the [files]
    member, or a fresh empty one in its absence. *)
Lemma wellShaped_files (pkg : JsValue) :
  wellShaped pkg = true ->
  exists props elems,
    pkg = JsObject props
    /\ readFiles pkg = Some (filesOf pkg)
    /\ (if truthy (filesOf pkg) then filesOf pkg else JsArray [])
       = JsArray elems
    /\ countEntry (filesOf pkg) = List.length (filter isEntry elems).
Proof.
  destruct pkg; simpl; try discriminate. intro W.
  exists props. unfold filesOf, readFiles.
  destruct (getProp props filesKey) as [v|] eqn:G.
  - destruct (truthy v) eqn:T; simpl in W.
    + destruct v; try discriminate. exists elems. auto.
    + exists []. repeat split. destruct v; try reflexivity. discriminate.
  - exists []. simpl. auto.
Qed.

Section Script.

Variable parse : jsstring -> completion JsValue.
Variable stringify : JsValue -> jsstring.

Local Abbreviation run := (run parse stringify).
Local Abbreviation update := (update stringify).

(** What the script does with a well-shaped document. *)
Lemma update_wellShaped (pkg : JsValue) :
  wellShaped pkg = true ->
  (countEntry (filesOf pkg) = 0
   /\ update pkg = (Some (stringify (pushed pkg) ++ [10%N]), Added)
   /\ wellShaped (pushed pkg) = true
   /\ countEntry (filesOf (pushed pkg)) = 1)
  \/ (countEntry (filesOf pkg) <> 0
      /\ update pkg = (None, AlreadyPresent)).
Proof.
  intro W.
  destruct (wellShaped_files pkg W) as (props & elems & -> & R & F & C).
  unfold UpdatePackageJson.update, pushed. rewrite R, F, C. simpl.
  rewrite existsb_filter.
  destruct (Nat.eqb (List.length (filter isEntry elems)) 0) eqn:Z; simpl.
  - apply Nat.eqb_eq in Z. left. split; [exact Z|]. split; [reflexivity|].
    unfold filesOf. simpl. rewrite getProp_setProp. simpl.
    split; [reflexivity|]. rewrite count_push, Z. reflexivity.
  - apply Nat.eqb_neq in Z. right. split; [exact Z | reflexivity].
Qed.

(** C10. On a manifest that is an object whose [files] member is missing,
    falsy or an array, the script succeeds; it writes exactly when the
    entry was not listed; afterwards the entry is listed once if it was
    not listed before and as often as before otherwise; and a second run
    on the result writes nothing and leaves the file as it is. *)
Theorem run_idempotent (content : jsstring) (pkg : JsValue) :
  parse content = Some pkg ->
  wellShaped pkg = true ->
  parse (stringify (pushed pkg) ++ [10%N]) = Some (pushed pkg) ->
  snd (run (Some content)) <> Failed
  /\ (snd (run (Some content)) = Added <-> countEntry (filesOf pkg) = 0)
  /\ (snd (run (Some content)) = AlreadyPresent ->
      fst (run (Some content)) = Some content)
  /\ (exists content1 pkg1,
         fst (run (Some content)) = Some content1
         /\ parse content1 = Some pkg1
         /\ countEntry (filesOf pkg1)
            = Nat.max 1 (countEntry (filesOf pkg)))
  /\ run (fst (run (Some content)))
     = (fst (run (Some content)), AlreadyPresent).
Proof.
  intros P W R.
  destruct (update_wellShaped pkg W) as [(Z & U & W' & C') | (Z & U)].
  - assert (E : run (Some content)
                = (Some (stringify (pushed pkg) ++ [10%N]), Added))
      by (unfold UpdatePackageJson.run; rewrite P, U; reflexivity).
    rewrite E. simpl.
    split; [discriminate|]. split; [tauto|]. split; [discriminate|].
    split.
    + exists (stringify (pushed pkg) ++ [10%N]), (pushed pkg).
      split; [reflexivity|]. split; [exact R|]. rewrite C', Z. reflexivity.
    + unfold UpdatePackageJson.run. rewrite R.
      destruct (update_wellShaped (pushed pkg) W') as [(Z' & _) | (_ & U')].
      * rewrite C' in Z'. discriminate.
      * rewrite U'. reflexivity.
  - assert (E : run (Some content) = (Some content, AlreadyPresent))
      by (unfold UpdatePackageJson.run; rewrite P, U; reflexivity).
    rewrite E. simpl.
    split; [discriminate|]. split.
    + split; [discriminate | intro N; exfalso; exact (Z N)].
    + split; [reflexivity|]. split.
      * exists content, pkg. split; [reflexivity|]. split; [exact P|].
        destruct (countEntry (filesOf pkg)); [congruence | reflexivity].
      * exact E.
Qed.

End Script.

Import PackageSamples.

(** A manifest without [files]: the first run adds the entry, the second
    leaves the file alone. *)
Lemma run_idempotent_witness :
  run parse stringify (Some freshText) = (Some (addedBody ++ [10%N]), Added)
  /\ run parse stringify (Some (addedBody ++ [10%N]))
     = (Some (addedBody ++ [10%N]), AlreadyPresent).
Proof.
  split; [reflexivity|].
  exact (proj2 (proj2 (proj2 (proj2
           (run_idempotent parse stringify freshText freshPkg
              eq_refl eq_refl eq_refl))))).
Defined.

(** A manifest that lists the entry twice: the run succeeds without
    writing, and the entry is still listed twice.  A document that is an
    array: the run reports the entry added and writes the array back, and
    so does the next run. *)
Lemma run_keeps_duplicates :
  (parse twiceText = Some twicePkg
   /\ run parse stringify (Some twiceText) = (Some twiceText, AlreadyPresent)
   /\ countEntry (filesOf twicePkg) = 2)
  /\ (run parse stringify (Some arrayText) = (Some arrayWritten, Added)
      /\ run parse stringify (Some arrayWritten)
         = (Some arrayWritten, Added)).
Proof. repeat split. Qed.

End UpdatePackageJsonFacts.

(* ================================================================== *)
(** ** Facts about filter-guards.js *)
(* ================================================================== *)

Module FilterGuardsFacts.
Import Js FilterGuards GuardFile.

(** *** Strings *)

Lemma startsWith_app (p rest : jsstring) : startsWith (p ++ rest) p = true.
Proof.
  induction p as [|c p IH]; simpl; [reflexivity|].
  rewrite N.eqb_refl. exact IH.
Qed.

Lemma startsWith_inv (s p : jsstring) :
  startsWith s p = true -> exists rest, s = p ++ rest.
Proof.
  revert s. induction p as [|c p IH]; intros s H; simpl in *.
  - exists s. reflexivity.
  - destruct s as [|d s]; [discriminate|].
    apply andb_true_iff in H. destruct H as [E H].
    apply N.eqb_eq in E. subst d.
    destruct (IH s H) as (rest & ->). exists rest. reflexivity.
Qed.

Lemma skipn_app_exact (p rest : jsstring) :
  skipn (List.length p) (p ++ rest) = rest.
Proof. induction p as [|c p IH]; simpl; [reflexivity | exact IH]. Qed.

Lemma replace_unfold (s p r : jsstring) :
  replace s p r
  = if startsWith s p then r ++ skipn (List.length p) s
    else match s with
         | [] => []
         | c :: s' => c :: replace s' p r
         end.
Proof. destruct s; reflexivity. Qed.

(** [replace] rewrites the occurrence of the pattern that no other
    precedes. *)
Lemma replace_first (p r a b : jsstring) :
  firstAt p a (a ++ p ++ b) ->
  replace (a ++ p ++ b) p r = a ++ r ++ b.
Proof.
  induction a as [|c a IH]; intro F.
  - rewrite replace_unfold. change ([] ++ p ++ b) with (p ++ b).
    rewrite startsWith_app, skipn_app_exact. reflexivity.
  - rewrite replace_unfold.
    assert (H0 : startsWith ((c :: a) ++ p ++ b) p = false)
      by (apply (F 0); simpl; lia).
    rewrite H0. change ((c :: a) ++ p ++ b) with (c :: (a ++ p ++ b)).
    change ((c :: a) ++ r ++ b) with (c :: (a ++ r ++ b)).
    cbv iota. f_equal. apply IH. intros i Hi. apply (F (S i)). simpl. lia.
Qed.

Lemma replace_absent (s p r : jsstring) :
  includes s p = false -> replace s p r = s.
Proof.
  induction s as [|c s IH]; intro H; rewrite replace_unfold;
    simpl in H; apply orb_false_iff in H; destruct H as [H1 H2];
    rewrite H1; [reflexivity|].
  f_equal. exact (IH H2).
Qed.

(** A replacement either leaves the string or exchanges one occurrence. *)
Lemma replace_cases (s p r : jsstring) :
  replace s p r = s
  \/ exists a b, s = a ++ p ++ b /\ replace s p r = a ++ r ++ b.
Proof.
  induction s as [|c s IH]; rewrite replace_unfold.
  - destruct (startsWith [] p) eqn:E; [|left; reflexivity].
    right. destruct (startsWith_inv _ _ E) as (rest & Hs).
    exists [], rest. split; [exact Hs|].
    rewrite Hs at 1. rewrite skipn_app_exact. reflexivity.
  - destruct (startsWith (c :: s) p) eqn:E.
    + right. destruct (startsWith_inv _ _ E) as (rest & Hs).
      exists [], rest. split; [exact Hs|].
      rewrite Hs. rewrite skipn_app_exact. reflexivity.
    + destruct IH as [IH | (a & b & Hs & IH)].
      * left. rewrite IH. reflexivity.
      * right. exists (c :: a), b. split.
        -- rewrite Hs. reflexivity.
        -- rewrite IH. reflexivity.
Qed.

(** *** Lines *)

Lemma split_oneLine (line : jsstring) :
  oneLine line = true -> split newline line = [line].
Proof.
  induction line as [|c line IH]; simpl; intro H; [reflexivity|].
  apply andb_true_iff in H. destruct H as [C H].
  apply negb_true_iff in C. rewrite C, (IH H). reflexivity.
Qed.

Lemma split_line_app (line rest : jsstring) :
  oneLine line = true ->
  split newline (line ++ newline :: rest) = line :: split newline rest.
Proof.
  induction line as [|c line IH]; simpl; intro H.
  - reflexivity.
  - apply andb_true_iff in H. destruct H as [C H].
    apply negb_true_iff in C. rewrite C, (IH H). reflexivity.
Qed.

(** Splitting the joined lines gives the lines back. *)
Lemma split_join (lines : list jsstring) :
  lines <> [] -> forallb oneLine lines = true ->
  split newline (join [newline] lines) = lines.
Proof.
  induction lines as [|l ls IH]; intros N H; [congruence|].
  simpl in H. apply andb_true_iff in H. destruct H as [Hl Hls].
  destruct ls as [|l' ls].
  - simpl. apply split_oneLine. exact Hl.
  - change (join [newline] (l :: l' :: ls))
      with (l ++ newline :: join [newline] (l' :: ls)).
    rewrite (split_line_app _ _ Hl). f_equal.
    apply IH; [discriminate | exact Hls].
Qed.

(** *** Trimming *)

Lemma trimStart_split (s : jsstring) :
  exists ws, s = ws ++ trimStart s /\ blank ws = true.
Proof.
  induction s as [|c s (ws & E & B)]; simpl.
  - exists []. auto.
  - destruct (isWhiteSpace c) eqn:W.
    + exists (c :: ws). simpl. rewrite W, B. split; [congruence | reflexivity].
    + exists []. auto.
Qed.

Lemma trimStart_cons (c : N) (s : jsstring) :
  trimStart (c :: s) = if isWhiteSpace c then trimStart s else c :: s.
Proof. reflexivity. Qed.

Lemma trimStart_blank_app (ws s : jsstring) :
  blank ws = true -> trimStart (ws ++ s) = trimStart s.
Proof.
  induction ws as [|w ws IH]; simpl; intro B; [reflexivity|].
  apply andb_true_iff in B. destruct B as [W B]. rewrite W. exact (IH B).
Qed.

Lemma trimStart_headInk (s : jsstring) :
  headInk s = true -> trimStart s = s.
Proof.
  destruct s as [|c s]; simpl; [discriminate|].
  intro H. apply negb_true_iff in H. rewrite H. reflexivity.
Qed.

(** Trimming the start leaves a tail that opens with ink. *)
Lemma trimStart_keeps_tail (x y : jsstring) :
  headInk y = true -> exists z, trimStart (x ++ y) = z ++ y.
Proof.
  intro H. induction x as [|c x (z & IH)]; simpl.
  - exists []. apply trimStart_headInk. exact H.
  - destruct (isWhiteSpace c).
    + exists z. exact IH.
    + exists (c :: x). reflexivity.
Qed.

Lemma startsWith_app_l (s rest p : jsstring) :
  startsWith s p = true -> startsWith (s ++ rest) p = true.
Proof.
  intro H. destruct (startsWith_inv _ _ H) as (t & ->).
  rewrite <- app_assoc. apply startsWith_app.
Qed.

(** A text that ends with ink opens the trimmed line exactly when it opens
    the line trimmed at its start. *)
Lemma startsWith_trim (x q : jsstring) :
  headInk (rev q) = true ->
  startsWith (trim x) q = startsWith (trimStart x) q.
Proof.
  intro H. unfold trim, trimEnd. set (y := trimStart x).
  apply eq_true_iff_eq. split; intro S.
  - destruct (trimStart_split (rev y)) as (ws & E & _).
    assert (Y : y = rev (trimStart (rev y)) ++ rev ws).
    { rewrite <- rev_app_distr, <- E, rev_involutive. reflexivity. }
    rewrite Y. apply startsWith_app_l. exact S.
  - destruct (startsWith_inv _ _ S) as (rest & Y). rewrite Y.
    rewrite rev_app_distr.
    destruct (trimStart_keeps_tail (rev rest) (rev q) H) as (z & ->).
    rewrite rev_app_distr, rev_involutive. apply startsWith_app.
Qed.

(** *** The rewrites leave declarations and braces alone *)

Lemma replace_after_blank (ws p r rest : jsstring) :
  blank ws = true -> headInk p = true ->
  replace (ws ++ p ++ rest) p r = ws ++ r ++ rest.
Proof.
  intros B H. apply replace_first. intros i Hi.
  destruct p as [|c p]; [discriminate|]. simpl in H.
  apply negb_true_iff in H. revert i Hi.
  induction ws as [|w ws IH]; intros i Hi; simpl in Hi; [lia|].
  simpl in B. apply andb_true_iff in B. destruct B as [W B].
  destruct i as [|i].
  - simpl. destruct (N.eqb c w) eqn:E; [|reflexivity].
    apply N.eqb_eq in E. congruence.
  - simpl. apply (IH B). lia.
Qed.

Lemma headInk_importPat (rest : jsstring) :
  headInk (importPat ++ rest) = true /\ headInk (importRep ++ rest) = true.
Proof. split; reflexivity. Qed.

(** The line trimmed at its start, after the first rewrite: the import
    clause becomes a type import, any other line is as it was. *)
Lemma trimStart_rewriteImport (line : jsstring) :
  (exists rest, trimStart line = importPat ++ rest
                /\ trimStart (rewriteImport line) = importRep ++ rest)
  \/ (startsWith (trimStart line) importPat = false
      /\ rewriteImport line = line).
Proof.
  unfold rewriteImport.
  rewrite (startsWith_trim line importPat eq_refl).
  destruct (startsWith (trimStart line) importPat) eqn:S; [|right; auto].
  left. destruct (startsWith_inv _ _ S) as (rest & T). exists rest.
  split; [exact T|].
  destruct (trimStart_split line) as (ws & E & B). rewrite E, T.
  rewrite (replace_after_blank ws importPat importRep rest B eq_refl).
  rewrite (trimStart_blank_app ws _ B).
  apply trimStart_headInk. reflexivity.
Qed.

Lemma safeHere_startsWith (q t1 t2 : jsstring) :
  safeHere q = true ->
  startsWith (letterF :: letterR :: t1) q
  = startsWith (letterF :: letterR :: t2) q.
Proof.
  destruct q as [|c1 [|c2 [|c3 q]]]; simpl; try reflexivity.
  intro H. apply negb_true_iff in H.
  destruct (N.eqb c1 letterF) eqn:E1; [|reflexivity].
  destruct (N.eqb c2 letterR) eqn:E2; [discriminate | reflexivity].
Qed.

(** What follows [u] does not matter to a text all of whose tails are
    safe. *)
Lemma tailsSafe_startsWith (u : jsstring) :
  forall q t1 t2,
    u <> [] -> tailsSafe q = true ->
    startsWith (u ++ letterF :: letterR :: t1) q
    = startsWith (u ++ letterF :: letterR :: t2) q.
Proof.
  induction u as [|c u IH]; intros q t1 t2 N T; [congruence|].
  destruct q as [|d q]; [reflexivity|].
  simpl in T. apply andb_true_iff in T. destruct T as [H T].
  simpl. f_equal. destruct u as [|c' u].
  - apply safeHere_startsWith. exact H.
  - apply IH; [discriminate | exact T].
Qed.

(** The two texts of the second rewrite, past their two letters. *)
Lemma fromPat_letters :
  exists t1 t2, fromPat = letterF :: letterR :: t1
                /\ fromRep = letterF :: letterR :: t2.
Proof. do 2 eexists. split; reflexivity. Qed.

Lemma startsWith_trimStart_from (a b1 b2 q : jsstring) :
  declText q ->
  startsWith (trimStart (a ++ letterF :: letterR :: b1)) q
  = startsWith (trimStart (a ++ letterF :: letterR :: b2)) q.
Proof.
  intros ((q' & ->) & _ & T). induction a as [|c a IH].
  - reflexivity.
  - rewrite <- !app_comm_cons, !trimStart_cons.
    destruct (isWhiteSpace c); [exact IH|].
    apply (tailsSafe_startsWith (c :: a)); [discriminate | exact T].
Qed.

(** A declaration opens the rewritten line exactly when it opens the
    line. *)
Lemma startsWith_rewriteLine (line q : jsstring) :
  declText q ->
  startsWith (trim (rewriteLine line)) q = startsWith (trim line) q.
Proof.
  intro D. assert (D' := D). destruct D' as ((q' & Q) & H & _).
  rewrite !(startsWith_trim _ q H). unfold rewriteLine.
  assert (I : startsWith (trimStart (rewriteImport line)) q
              = startsWith (trimStart line) q).
  { destruct (trimStart_rewriteImport line) as [(rest & E1 & E2) | (_ & E)].
    - rewrite E1, E2, Q. reflexivity.
    - rewrite E. reflexivity. }
  rewrite <- I.
  destruct (replace_cases (rewriteImport line) fromPat fromRep)
    as [E | (a & b & E1 & E2)].
  - rewrite E. reflexivity.
  - rewrite E2, E1. destruct fromPat_letters as (t1 & t2 & -> & ->).
    simpl app. apply startsWith_trimStart_from. exact D.
Qed.

Lemma declText_guardDecl (name : jsstring) :
  In name guardsToRemove -> declText (guardDecl name).
Proof.
  intro H. split; [eexists; reflexivity|].
  unfold guardsToRemove in H. simpl in H.
  repeat (destruct H as [<- | H]; [split; reflexivity|]).
  destruct H.
Qed.

Lemma declText_excludeDecl (name : jsstring) :
  In name excludes -> declText (excludeDecl name).
Proof.
  intro H. split; [eexists; reflexivity|].
  unfold excludes in H. simpl in H.
  repeat (destruct H as [<- | H]; [split; reflexivity|]).
  destruct H.
Qed.

Lemma find_ext_in (f g : jsstring -> bool) (names : list jsstring) :
  (forall name, In name names -> f name = g name) ->
  find f names = find g names.
Proof.
  induction names as [|n names IH]; intro H; simpl; [reflexivity|].
  rewrite (H n (or_introl eq_refl)).
  destruct (g n); [reflexivity|].
  apply IH. intros name Hn. apply H. right. exact Hn.
Qed.

Lemma matchDecl_guard_rewriteLine (line : jsstring) :
  matchDecl guardDecl guardsToRemove (rewriteLine line)
  = matchDecl guardDecl guardsToRemove line.
Proof.
  apply find_ext_in. intros name H.
  apply startsWith_rewriteLine, declText_guardDecl, H.
Qed.

Lemma matchDecl_exclude_rewriteLine (line : jsstring) :
  matchDecl excludeDecl excludes (rewriteLine line)
  = matchDecl excludeDecl excludes line.
Proof.
  apply find_ext_in. intros name H.
  apply startsWith_rewriteLine, declText_excludeDecl, H.
Qed.

Lemma countBraces_app (count : Z) (u v : jsstring) :
  countBraces count (u ++ v) = countBraces (countBraces count u) v.
Proof. apply fold_left_app. Qed.

Lemma countBraces_shift (line : jsstring) :
  forall count, countBraces count line = (count + countBraces 0 line)%Z.
Proof.
  unfold countBraces. induction line as [|c line IH]; intro count; simpl.
  - lia.
  - match goal with
    | |- fold_left _ line ?a = (_ + fold_left _ line ?b)%Z =>
        rewrite (IH a), (IH b)
    end.
    destruct (N.eqb c lbrace), (N.eqb c rbrace); lia.
Qed.

Lemma countBraces_replace (s p r : jsstring) (count : Z) :
  countBraces 0 p = countBraces 0 r ->
  countBraces count (replace s p r) = countBraces count s.
Proof.
  intro H. destruct (replace_cases s p r) as [-> | (a & b & E1 & ->)];
    [reflexivity|].
  rewrite E1, !countBraces_app.
  rewrite (countBraces_shift p), (countBraces_shift r), H. reflexivity.
Qed.

(** The rewrites add and remove no brace. *)
Lemma countBraces_rewriteLine (line : jsstring) (count : Z) :
  countBraces count (rewriteLine line) = countBraces count line.
Proof.
  unfold rewriteLine.
  rewrite (countBraces_replace _ fromPat fromRep count eq_refl).
  unfold rewriteImport. destruct (startsWith (trim line) importPat);
    [|reflexivity].
  apply countBraces_replace. reflexivity.
Qed.

(** *** The loop *)

Lemma declaresRemoved_false (line : jsstring) :
  declaresRemoved line = false ->
  matchDecl guardDecl guardsToRemove (rewriteLine line) = None
  /\ matchDecl excludeDecl excludes (rewriteLine line) = None.
Proof.
  rewrite matchDecl_guard_rewriteLine, matchDecl_exclude_rewriteLine.
  unfold declaresRemoved.
  destruct (matchDecl guardDecl guardsToRemove line); [discriminate|].
  destruct (matchDecl excludeDecl excludes line); [discriminate|].
  auto.
Qed.

(** A line outside the removed functions is kept, rewritten. *)
Lemma step_keep (s : state) (line : jsstring) :
  insideGuard s = false -> skip s = false ->
  declaresRemoved line = false ->
  step s line
  = mkState (newLines s ++ [rewriteLine line]) false (braceCount s) false
            (currentGuardName s).
Proof.
  intros I K D. destruct (declaresRemoved_false _ D) as [G X].
  unfold step. rewrite G, I, X, K. reflexivity.
Qed.

Lemma closes_cons (count : Z) (line : jsstring) (rest : list jsstring) :
  closes count (line :: rest)
  = match rest with
    | [] => Z.eqb (countBraces count line) 0
    | _ => negb (Z.eqb (countBraces count line) 0)
           && closes (countBraces count line) rest
    end.
Proof. reflexivity. Qed.

(** The lines after a declaration are dropped up to the line at which the
    braces close. *)
Lemma fold_inside (body : list jsstring) :
  forall s,
    insideGuard s = true ->
    forallb (fun l => negb (declaresRemoved l)) body = true ->
    closes (braceCount s) body = true ->
    newLines (fold_left step body s) = newLines s
    /\ skip (fold_left step body s) = skip s
    /\ insideGuard (fold_left step body s) = false.
Proof.
  induction body as [|line rest IH]; intros s I D C; [discriminate|].
  simpl in D. apply andb_true_iff in D. destruct D as [D Drest].
  apply negb_true_iff in D. destruct (declaresRemoved_false _ D) as [G _].
  simpl fold_left. rewrite closes_cons in C.
  assert (E : step s line
              = if Z.eqb (countBraces (braceCount s) line) 0
                then mkState (newLines s) (skip s)
                             (countBraces (braceCount s) line) false []
                else mkState (newLines s) (skip s)
                             (countBraces (braceCount s) line) true
                             (currentGuardName s))
    by (unfold step; rewrite G, I, countBraces_rewriteLine; reflexivity).
  rewrite E. destruct rest as [|line' rest].
  - rewrite C. simpl. auto.
  - apply andb_true_iff in C. destruct C as [C1 C2].
    apply negb_true_iff in C1. rewrite C1.
    apply (IH (mkState (newLines s) (skip s)
                       (countBraces (braceCount s) line) true
                       (currentGuardName s)));
      [reflexivity | exact Drest | exact C2].
Qed.

Lemma fold_skipping (body : list jsstring) :
  forall s,
    insideGuard s = false -> skip s = true ->
    forallb (fun l => negb (declaresRemoved l)) body = true ->
    closes (braceCount s) body = true ->
    newLines (fold_left step body s) = newLines s
    /\ skip (fold_left step body s) = false
    /\ insideGuard (fold_left step body s) = false.
Proof.
  induction body as [|line rest IH]; intros s I K D C; [discriminate|].
  simpl in D. apply andb_true_iff in D. destruct D as [D Drest].
  apply negb_true_iff in D. destruct (declaresRemoved_false _ D) as [G X].
  simpl fold_left. rewrite closes_cons in C.
  assert (E : step s line
              = mkState (newLines s)
                        (negb (Z.eqb (countBraces (braceCount s) line) 0))
                        (countBraces (braceCount s) line) false
                        (currentGuardName s))
    by (unfold step; rewrite G, I, X, K, countBraces_rewriteLine;
        reflexivity).
  rewrite E. destruct rest as [|line' rest].
  - rewrite C. simpl. auto.
  - apply andb_true_iff in C. destruct C as [C1 C2].
    apply negb_true_iff in C1. rewrite C1.
    apply (IH (mkState (newLines s) true
                       (countBraces (braceCount s) line) false
                       (currentGuardName s)));
      [reflexivity | reflexivity | exact Drest | exact C2].
Qed.

(** A well-formed block, met outside any removed function, contributes its
    kept lines and leaves the loop outside again. *)
Lemma fold_block (b : block) (s : state) :
  wellFormed b = true ->
  insideGuard s = false -> skip s = false ->
  newLines (fold_left step (blockLines b) s)
  = newLines s ++ List.map rewriteLine (keptLines b)
  /\ skip (fold_left step (blockLines b) s) = false
  /\ insideGuard (fold_left step (blockLines b) s) = false.
Proof.
  intros W I K. destruct b as [line | decl body]; simpl in W.
  - apply negb_true_iff in W. simpl. rewrite (step_keep s line I K W).
    simpl. auto.
  - apply andb_true_iff in W. destruct W as [W C].
    apply andb_true_iff in W. destruct W as [D B].
    simpl blockLines. simpl fold_left. simpl keptLines.
    rewrite app_nil_r. unfold declaresRemoved in D.
    rewrite <- matchDecl_guard_rewriteLine,
            <- matchDecl_exclude_rewriteLine in D.
    destruct (matchDecl guardDecl guardsToRemove (rewriteLine decl))
      as [g|] eqn:G.
    + assert (E : step s decl
                  = mkState (newLines s) false (countBraces 0 decl) true g)
        by (unfold step; rewrite G, K, countBraces_rewriteLine;
            reflexivity).
      rewrite E.
      apply (fold_inside body
               (mkState (newLines s) false (countBraces 0 decl) true g)
               eq_refl B C).
    + destruct (matchDecl excludeDecl excludes (rewriteLine decl))
        as [x|] eqn:X; [|discriminate].
      assert (E : step s decl
                  = mkState (newLines s) true (countBraces 0 decl) false
                            (currentGuardName s))
        by (unfold step; rewrite G, I, X, countBraces_rewriteLine;
            reflexivity).
      rewrite E.
      apply (fold_skipping body
               (mkState (newLines s) true (countBraces 0 decl) false
                        (currentGuardName s))
               eq_refl eq_refl B C).
Qed.

Lemma fold_blocks (bs : list block) :
  forall s,
    forallb wellFormed bs = true ->
    insideGuard s = false -> skip s = false ->
    newLines (fold_left step (fileLines bs) s)
    = newLines s ++ List.map rewriteLine (fileKept bs).
Proof.
  induction bs as [|b bs IH]; intros s W I K.
  - simpl. rewrite app_nil_r. reflexivity.
  - simpl in W. apply andb_true_iff in W. destruct W as [Wb Wbs].
    unfold fileLines, fileKept. simpl flat_map.
    rewrite fold_left_app, map_app, app_assoc.
    destruct (fold_block b s Wb I K) as (N & K' & I').
    rewrite <- N. apply IH; assumption.
Qed.

Lemma fileLines_oneLine (bs : list block) :
  forallb blockOneLine bs = true -> forallb oneLine (fileLines bs) = true.
Proof.
  induction bs as [|b bs IH]; simpl; intro H; [reflexivity|].
  apply andb_true_iff in H. destruct H as [Hb Hbs].
  unfold fileLines. simpl. rewrite forallb_app.
  apply andb_true_iff. split; [exact Hb | exact (IH Hbs)].
Qed.

Lemma fileLines_nonempty (bs : list block) :
  bs <> [] -> fileLines bs <> [].
Proof.
  destruct bs as [|[line | decl body] bs]; [congruence | |];
    intros _; discriminate.
Qed.

(** C8. On a file made of kept lines and of functions to remove, each of
    which declares no other and closes its braces at its last line, after
    the declaration line and not before, the filter writes the kept lines,
    rewritten, followed by the generic guards as they stand, and no line of
    a removed function; a line that opens with the import clause, indented
    or not, opens with the type import instead; and the first occurrence of
    the module path on a line gets its extension, a line without one being
    left as it is. *)
Theorem filterGuards_removes (bs : list block) :
  bs <> [] ->
  forallb blockOneLine bs = true ->
  forallb wellFormed bs = true ->
  filterGuards (fileText bs)
  = join [newline] (List.map rewriteLine (fileKept bs) ++ [genericGuards])
  /\ (forall ws rest,
         blank ws = true ->
         rewriteImport (ws ++ importPat ++ rest) = ws ++ importRep ++ rest)
  /\ (forall line a b,
         rewriteImport line = a ++ fromPat ++ b ->
         firstAt fromPat a (a ++ fromPat ++ b) ->
         rewriteLine line = a ++ fromRep ++ b)
  /\ (forall line,
         includes (rewriteImport line) fromPat = false ->
         rewriteLine line = rewriteImport line).
Proof.
  intros N L W. split; [|split; [|split]].
  - unfold filterGuards, fileText, filterLines.
    rewrite (split_join (fileLines bs) (fileLines_nonempty bs N)
                        (fileLines_oneLine bs L)).
    rewrite (fold_blocks bs init W eq_refl eq_refl). reflexivity.
  - intros ws rest B. unfold rewriteImport.
    rewrite (startsWith_trim _ importPat eq_refl).
    rewrite (trimStart_blank_app ws _ B).
    rewrite (trimStart_headInk (importPat ++ rest) eq_refl).
    rewrite startsWith_app.
    apply (replace_after_blank ws importPat importRep rest B eq_refl).
  - intros line a b E F. unfold rewriteLine. rewrite E.
    apply replace_first. exact F.
  - intros line H. unfold rewriteLine. apply replace_absent. exact H.
Qed.

Import GuardSamples.

(** The generated sample: both removed guards go, the import is
    rewritten. *)
Lemma filterGuards_removes_witness :
  filterGuards (fileText generated)
  = join [newline]
      [ lit "import type { Digest, ZMap } " ++ fromRep ++ lit ";";
        lit "";
        lit "export function isDigest(obj: unknown): obj is Digest {";
        lit "    return typeof obj === 'string';";
        lit "}";
        lit "// end";
        genericGuards ].
Proof.
  refine (eq_trans
            (proj1 (filterGuards_removes generated _ eq_refl eq_refl)) _).
  - discriminate.
  - vm_compute. reflexivity.
Defined.

(** A guard with a long signature keeps its last three lines, and of two
    module paths on a line the second stays without extension. *)
Lemma filterGuards_leaves_lines :
  filterLines (split newline longSignature)
  = [ lit "    isE: unknown): obj is ZBase {";
      lit "    return Array.isArray(obj);";
      lit "}" ]
  /\ rewriteLine twoImports
     = lit "import type { A } " ++ fromRep ++ lit "; import { B } "
       ++ fromPat ++ lit ";"
  /\ includes (filterGuards twoImports) fromPat = true.
Proof. split; [|split]; vm_compute; reflexivity. Qed.

End FilterGuardsFacts.

(* ================================================================== *)
(** ** More facts about the generic guards *)
(* ================================================================== *)

Module GuardsMore.
Import Js Guards GuardValues.

Lemma every_total (f : guard) (elems : list (option JsValue)) :
  (forall v, In v (present elems) -> f v <> None) ->
  every f elems <> None.
Proof.
  induction elems as [|[v|] rest IH]; simpl; intro H.
  - discriminate.
  - destruct (f v) as [[|]|] eqn:E.
    + apply IH. intros u Hu. apply H. right. exact Hu.
    + discriminate.
    + exfalso. exact (H v (or_introl eq_refl) E).
  - exact (IH H).
Qed.

Lemma every_stops (f : guard) (pre post : list (option JsValue))
      (v : JsValue) :
  Forall (fun u => f u = Some true) (present pre) ->
  f v <> Some true ->
  every f (pre ++ Some v :: post)
  = match f v with None => None | Some _ => Some false end.
Proof.
  induction pre as [|[u|] pre IH]; simpl; intros P N.
  - destruct (f v) as [[|]|]; [congruence | reflexivity | reflexivity].
  - inversion P as [|? ? Hu P']; subst. rewrite Hu. exact (IH P' N).
  - exact (IH P N).
Qed.

Lemma everyFrom_true_iff (f : callback) (arr : JsValue)
      (elems : list (option JsValue)) :
  forall i,
    everyFrom f arr i elems = Some true <->
    forall k v, nth_error elems k = Some (Some v) ->
                f v (indexAt (i + k)) arr = Some true.
Proof.
  induction elems as [|[u|] rest IH]; intro i; simpl.
  - split; [|reflexivity]. intros _ [|k] v H; discriminate.
  - fold (indexAt i). split.
    + intro H. destruct (f u (indexAt i) arr) as [[|]|] eqn:E;
        try discriminate.
      intros [|k] v Hk; simpl in Hk.
      * injection Hk as <-. rewrite Nat.add_0_r. exact E.
      * replace (i + S k) with (S i + k) by lia.
        apply (proj1 (IH (S i)) H). exact Hk.
    + intro H. pose proof (H 0 u eq_refl) as H0.
      rewrite Nat.add_0_r in H0. rewrite H0. apply IH. intros k v Hk.
      replace (S i + k) with (i + S k) by lia. apply H. exact Hk.
  - rewrite IH. split; intros H k v Hk.
    + destruct k as [|k]; [discriminate|].
      replace (i + S k) with (S i + k) by lia. apply H. exact Hk.
    + replace (S i + k) with (i + S k) by lia. apply (H (S k)). exact Hk.
Qed.

(** Under a callback that reads the element only, [every] with three
    arguments is [every] with one. *)
Lemma everyFrom_unary (f : callback) (g : guard) (arr : JsValue)
      (elems : list (option JsValue)) :
  (forall v i a, f v i a = g v) ->
  forall i, everyFrom f arr i elems = every g elems.
Proof.
  intro H. induction elems as [|[u|] rest IH]; intro i; simpl.
  - reflexivity.
  - rewrite H, IH. reflexivity.
  - apply IH.
Qed.

Lemma everyFrom_total (f : callback) (arr : JsValue)
      (elems : list (option JsValue)) :
  (forall v i a, f v i a <> None) ->
  forall i, everyFrom f arr i elems <> None.
Proof.
  intro H. induction elems as [|[u|] rest IH]; intro i; simpl.
  - discriminate.
  - specialize (H u (JsNumber (Z.of_nat i)) arr).
    destruct (f u (JsNumber (Z.of_nat i)) arr) as [[|]|];
      [apply IH | discriminate | congruence].
  - apply IH.
Qed.

Lemma everyFrom_stops (f : callback) (arr : JsValue)
      (pre post : list (option JsValue)) (v : JsValue) :
  forall i,
    (forall k u, nth_error pre k = Some (Some u) ->
                 f u (indexAt (i + k)) arr = Some true) ->
    f v (indexAt (i + List.length pre)) arr <> Some true ->
    everyFrom f arr i (pre ++ Some v :: post)
    = match f v (indexAt (i + List.length pre)) arr with
      | None => None
      | Some _ => Some false
      end.
Proof.
  induction pre as [|[u|] pre IH]; intros i P N; simpl;
    cbn [List.length] in N.
  - fold (indexAt i). rewrite Nat.add_0_r in *.
    destruct (f v (indexAt i) arr) as [[|]|];
      [congruence | reflexivity | reflexivity].
  - fold (indexAt i). pose proof (P 0 u eq_refl) as P0.
    rewrite Nat.add_0_r in P0. rewrite P0.
    replace (i + S (List.length pre)) with (S i + List.length pre) in *
      by lia.
    apply (IH (S i)); [|exact N].
    intros k w Hk. replace (S i + k) with (i + S k) by lia.
    apply (P (S k)). exact Hk.
  - replace (i + S (List.length pre)) with (S i + List.length pre) in *
      by lia.
    apply (IH (S i)); [|exact N].
    intros k w Hk. replace (S i + k) with (i + S k) by lia.
    apply (P (S k)). exact Hk.
Qed.

Lemma everyFrom_holes (f : callback) (arr : JsValue)
      (elems : list (option JsValue)) :
  present elems = [] -> forall i, everyFrom f arr i elems = Some true.
Proof.
  induction elems as [|[u|] rest IH]; simpl; intros H i.
  - reflexivity.
  - discriminate.
  - apply IH. exact H.
Qed.

(** X1. [isZSet] answers [true] exactly on the arrays all of whose
    elements pass the guard, which it calls on the element alone;
    [isZBase] answers [true] exactly on the arrays each of whose elements
    passes the guard called on the element, its index and the array; both
    answer [false] on every value that is not an array; the two agree for a
    guard that reads the element only, and need not agree otherwise. *)
Theorem isZSet_exact (obj : JsValue) (isT : guard) (isE : callback) :
  (isZSet obj isT = Some true <->
   exists elems, obj = JsArray elems
                 /\ Forall (fun v => isT v = Some true) (present elems))
  /\ (isZBase obj isE = Some true <->
      exists elems, obj = JsArray elems
                    /\ forall k v, nth_error elems k = Some (Some v) ->
                                   isE v (indexAt k) obj = Some true)
  /\ (isArray obj = false ->
      isZSet obj isT = Some false /\ isZBase obj isE = Some false)
  /\ ((forall v i a, isE v i a = isT v) ->
      isZBase obj isE = isZSet obj isT)
  /\ (isZBase (JsArray [Some (JsNumber 1)]) indexMissing = Some false
      /\ isZSet (JsArray [Some (JsNumber 1)]) (alone indexMissing)
         = Some true).
Proof.
  split; [|split; [|split; [|split]]].
  - unfold isZSet, isZSetEntry. split.
    + destruct obj; simpl; try discriminate. intro H. exists elems.
      split; [reflexivity|]. apply GuardsFacts.every_true_iff.
      unfold everyWith in H.
      rewrite (everyFrom_unary (fun e _ _ => isT e) isT) in H; auto.
    + intros (elems & -> & H). simpl. unfold everyWith.
      rewrite (everyFrom_unary (fun e _ _ => isT e) isT) by auto.
      apply GuardsFacts.every_true_iff. exact H.
  - split.
    + destruct obj; simpl; try discriminate. intro H. exists elems.
      split; [reflexivity|]. unfold everyWith in H.
      apply (proj1 (everyFrom_true_iff isE _ elems 0)). exact H.
    + intros (elems & -> & H). simpl. unfold everyWith.
      apply (proj2 (everyFrom_true_iff isE _ elems 0)). exact H.
  - destruct obj; simpl; try discriminate; intros _; split; reflexivity.
  - intro H. unfold isZSet, isZSetEntry. destruct obj; simpl; try reflexivity.
    unfold everyWith.
    rewrite (everyFrom_unary isE isT) by exact H.
    rewrite (everyFrom_unary (fun e _ _ => isT e) isT) by auto.
    reflexivity.
  - split; reflexivity.
Qed.

Lemma isZSet_exact_witness :
  isZBase (JsNumber 3) (fun _ _ _ => None) = Some false
  /\ isZBase (JsArray [Some (JsString (lit "a")); None])
             (fun v _ _ => isString v)
     = isZSet (JsArray [Some (JsString (lit "a")); None]) isString.
Proof.
  split.
  - exact (proj2 (proj1 (proj2 (proj2
             (isZSet_exact (JsNumber 3) (fun _ => None)
                           (fun _ _ _ => None)))) eq_refl)).
  - apply (proj1 (proj2 (proj2 (proj2
             (isZSet_exact (JsArray [Some (JsString (lit "a")); None])
                           isString (fun v _ _ => isString v)))))).
    reflexivity.
Defined.

(** X2. The first element that does not pass decides: [isZBase] and
    [isZMap] answer [false] there, or throw if the guard threw on it, and
    the guard is not called on the elements after it. *)
Theorem guards_stop_at_first_failure
        (isE : callback) (isK isV : guard)
        (pre post : list (option JsValue)) (v : JsValue) :
  ((forall k u, nth_error pre k = Some (Some u) ->
                isE u (indexAt k) (JsArray (pre ++ Some v :: post))
                = Some true) ->
   isE v (indexAt (List.length pre)) (JsArray (pre ++ Some v :: post))
   <> Some true ->
   isZBase (JsArray (pre ++ Some v :: post)) isE
   = match isE v (indexAt (List.length pre))
               (JsArray (pre ++ Some v :: post)) with
     | None => None
     | Some _ => Some false
     end)
  /\ (Forall (fun u => isZMapEntry u isK isV = Some true) (present pre) ->
      isZMapEntry v isK isV <> Some true ->
      isZMap (JsArray (pre ++ Some v :: post)) isK isV
      = match isZMapEntry v isK isV with
        | None => None
        | Some _ => Some false
        end).
Proof.
  split; intros P N; simpl.
  - unfold everyWith. apply (everyFrom_stops isE _ pre post v 0).
    + exact P.
    + exact N.
  - apply (every_stops (fun entry => isZMapEntry entry isK isV));
      assumption.
Qed.

(** A guard that throws on strings: the string after the number is not
    reached. *)
Lemma guards_stop_at_first_failure_witness :
  isZBase (JsArray [Some (JsBool true); Some (JsNumber 1);
                    Some (JsString (lit "x"))])
          boolOrThrow
  = Some false.
Proof.
  refine (proj1 (guards_stop_at_first_failure
                   boolOrThrow (fun _ => None) (fun _ => None)
                   [Some (JsBool true)] [Some (JsString (lit "x"))]
                   (JsNumber 1)) _ _).
  - intros [|[|k]] u H; simpl in H; try discriminate.
    injection H as <-. reflexivity.
  - discriminate.
Defined.

(** X3. An array without elements, be it empty or made of holes only,
    passes [isZBase], [isZSet] and [isZMap] whatever the guards given would
    answer. *)
Theorem guards_pass_holes (elems : list (option JsValue))
        (isE : callback) (isT isK isV : guard) :
  present elems = [] ->
  isZBase (JsArray elems) isE = Some true
  /\ isZSet (JsArray elems) isT = Some true
  /\ isZMap (JsArray elems) isK isV = Some true.
Proof.
  intro H. unfold isZSet. simpl. unfold everyWith.
  rewrite !(everyFrom_holes _ _ elems H).
  repeat split. apply GuardsFacts.every_true_iff. rewrite H. constructor.
Qed.

Lemma guards_pass_holes_witness :
  isZMap (JsArray [None; None; None]) (fun _ => Some false) (fun _ => None)
  = Some true.
Proof.
  exact (proj2 (proj2 (guards_pass_holes [None; None; None]
                         (fun _ _ _ => None) (fun _ => None)
                         (fun _ => Some false) (fun _ => None) eq_refl))).
Defined.

(** X4. The guards throw only where a guard given to them throws: with
    element guards that always answer, [isZBase], [isZSet], [isZMapEntry]
    and [isZMap] always answer. *)
Theorem guards_total (obj : JsValue) (isE : callback) (isT isK isV : guard) :
  ((forall v i a, isE v i a <> None) -> isZBase obj isE <> None)
  /\ ((forall v, isT v <> None) -> isZSet obj isT <> None)
  /\ ((forall v, isK v <> None) -> (forall v, isV v <> None) ->
      isZMapEntry obj isK isV <> None /\ isZMap obj isK isV <> None).
Proof.
  assert (E : forall K V : guard,
             (forall v, K v <> None) -> (forall v, V v <> None) ->
             forall o, isZMapEntry o K V <> None).
  { intros K V HK HV o. destruct o; simpl; try discriminate.
    destruct (Nat.eqb (List.length elems) 2); simpl; [|discriminate].
    specialize (HK (index elems 0)).
    destruct (K (index elems 0)) as [[|]|]; simpl;
      [apply HV | discriminate | congruence]. }
  split; [|split].
  - intro H. destruct obj; simpl; try discriminate.
    apply everyFrom_total. exact H.
  - intro H. unfold isZSet, isZSetEntry.
    destruct obj; simpl; try discriminate.
    apply everyFrom_total. intros v _ _. apply H.
  - intros HK HV. split; [apply E; assumption|].
    destruct obj; simpl; try discriminate.
    apply every_total. intros v _. apply E; assumption.
Qed.

Lemma guards_total_witness :
  isZMap (JsArray [Some (JsArray [Some JsNull; None])])
         (fun _ => Some true) (fun _ => Some false) <> None.
Proof.
  apply (proj2 (proj2 (guards_total
                  (JsArray [Some (JsArray [Some JsNull; None])])
                  (fun _ _ _ => Some true) (fun _ => Some true)
                  (fun _ => Some true) (fun _ => Some false)))).
  - discriminate.
  - discriminate.
Defined.

End GuardsMore.

(* ================================================================== *)
(** ** Facts about the type definition patch *)
(* ================================================================== *)

Module PatchDtsFacts.
Import Js PatchDts.

Lemma includes_app_r (s t p : jsstring) :
  includes t p = true -> includes (s ++ t) p = true.
Proof.
  intro H. induction s as [|c s IH]; [exact H|].
  simpl. rewrite IH. apply orb_true_r.
Qed.

(** X5. Whatever the file holds, a run of the patch succeeds and only ever
    appends: the content before is a prefix of the content after, which
    holds the marker; a file that held the marker is left as it is; and a
    second run finds the types present and writes nothing. *)
Theorem patch_idempotent (content : jsstring) :
  exists patched,
    fst (run (Some content)) = Some patched
    /\ snd (run (Some content)) <> Failed
    /\ (exists tail, patched = content ++ tail)
    /\ includes patched marker = true
    /\ (includes content marker = true -> patched = content)
    /\ run (Some patched) = (Some patched, Present).
Proof.
  unfold run. destruct (includes content marker) eqn:I; simpl.
  - exists content. split; [reflexivity|]. split; [discriminate|].
    split; [exists []; rewrite app_nil_r; reflexivity|].
    split; [exact I|]. split; [reflexivity|]. rewrite I. reflexivity.
  - exists (content ++ missingTypes). split; [reflexivity|].
    split; [discriminate|]. split; [exists missingTypes; reflexivity|].
    assert (M : includes (content ++ missingTypes) marker = true)
      by (apply includes_app_r; vm_compute; reflexivity).
    split; [exact M|]. split; [discriminate|]. rewrite M. reflexivity.
Qed.

Lemma patch_idempotent_witness :
  includes (lit "export type TxIdentifier = number;") marker = true
  /\ run (Some (lit "export type TxIdentifier = number;"))
     = (Some (lit "export type TxIdentifier = number;"), Present).
Proof.
  split; [reflexivity|].
  destruct (patch_idempotent (lit "export type TxIdentifier = number;"))
    as (patched & E & _ & _ & _ & P & R).
  rewrite (P eq_refl) in R. exact R.
Defined.

End PatchDtsFacts.

(* ================================================================== *)
(** ** More facts about update-package-json.js *)
(* ================================================================== *)

Module UpdatePackageJsonMore.
Import Js UpdatePackageJson.

Lemma str_eqb_eq (a b : jsstring) : str_eqb a b = true -> a = b.
Proof.
  revert b. induction a as [|x a IH]; intros [|y b] H; simpl in H;
    try discriminate; [reflexivity|].
  apply andb_true_iff in H. destruct H as [E H].
  apply N.eqb_eq in E. rewrite E, (IH b H). reflexivity.
Qed.

(** Setting one member leaves the others as they are. *)
Lemma getProp_setProp_other (props : list (jsstring * JsValue))
      (key other : jsstring) (v : JsValue) :
  str_eqb key other = false ->
  getProp (setProp props key v) other = getProp props other.
Proof.
  intro N. induction props as [|[k w] rest IH]; simpl.
  - rewrite N. reflexivity.
  - destruct (str_eqb k key) eqn:E; simpl.
    + apply str_eqb_eq in E. subst k. rewrite N. reflexivity.
    + rewrite IH. reflexivity.
Qed.

(** Setting a member keeps the members in their order; a new one goes
    last. *)
Lemma keys_setProp (props : list (jsstring * JsValue)) (key : jsstring)
      (v : JsValue) :
  List.map fst (setProp props key v)
  = match getProp props key with
    | Some _ => List.map fst props
    | None => List.map fst props ++ [key]
    end.
Proof.
  induction props as [|[k w] rest IH]; simpl; [reflexivity|].
  destruct (str_eqb k key) eqn:E; simpl; [reflexivity|].
  rewrite IH. destruct (getProp rest key); reflexivity.
Qed.

Section Script.

Variable parse : jsstring -> completion JsValue.
Variable stringify : JsValue -> jsstring.

Local Abbreviation run := (run parse stringify).
Local Abbreviation update := (update stringify).

Lemma update_writes_when_adding (pkg : JsValue) :
  snd (update pkg) <> Added -> fst (update pkg) = None.
Proof.
  unfold UpdatePackageJson.update.
  destruct (readFiles pkg) as [files0|]; [|reflexivity].
  destruct (withFiles pkg _); [|reflexivity].
  destruct (filesIncludes _) as [[|]|]; try reflexivity.
  destruct (filesPush _); [|reflexivity].
  destruct (withFiles pkg _); [|reflexivity].
  simpl. congruence.
Qed.

(** X6. The script writes the manifest only on the run that reports the
    entry added: a run that fails or finds the entry leaves the file as it
    was, and a manifest that cannot be read or parsed makes the run
    fail. *)
Theorem run_writes_only_when_adding (file : option jsstring) :
  (snd (run file) <> Added -> fst (run file) = file)
  /\ (file = None -> run file = (None, Failed))
  /\ (forall content,
         file = Some content -> parse content = None ->
         run file = (file, Failed)).
Proof.
  split; [|split].
  - destruct file as [content|]; [|reflexivity].
    unfold UpdatePackageJson.run.
    destruct (parse content) as [pkg|]; [|reflexivity].
    pose proof (update_writes_when_adding pkg) as U.
    destruct (update pkg) as [[text|] out]; simpl in *.
    + intro N. specialize (U N). discriminate.
    + reflexivity.
  - intros ->. reflexivity.
  - intros content -> P. unfold UpdatePackageJson.run. rewrite P.
    reflexivity.
Qed.

(** X7. When the entry is added to a well-shaped manifest, the document
    written keeps every other member with its value, keeps the members in
    their order (a new [files] member goes last), and its [files] array is
    the former entries in their order followed by the new one. *)
Theorem update_preserves (pkg : JsValue) :
  wellShaped pkg = true ->
  countEntry (filesOf pkg) = 0 ->
  exists props props' elems,
    pkg = JsObject props
    /\ update pkg = (Some (stringify (JsObject props') ++ [10%N]), Added)
    /\ (if truthy (filesOf pkg) then filesOf pkg else JsArray [])
       = JsArray elems
    /\ getProp props' filesKey
       = Some (JsArray (elems ++ [Some (JsString fileToAdd)]))
    /\ (forall key, str_eqb filesKey key = false ->
                    getProp props' key = getProp props key)
    /\ List.map fst props'
       = match getProp props filesKey with
         | Some _ => List.map fst props
         | None => List.map fst props ++ [filesKey]
         end.
Proof.
  intros W Z.
  destruct (UpdatePackageJsonFacts.wellShaped_files pkg W)
    as (props & elems & -> & R & F & C).
  exists props,
    (setProp props filesKey (JsArray (elems ++ [Some (JsString fileToAdd)]))),
    elems.
  split; [reflexivity|]. split.
  - unfold UpdatePackageJson.update. rewrite R, F. simpl.
    rewrite UpdatePackageJsonFacts.existsb_filter, <- C, Z. reflexivity.
  - split; [exact F|]. split.
    + apply UpdatePackageJsonFacts.getProp_setProp.
    + split.
      * intros key N. apply getProp_setProp_other. exact N.
      * apply keys_setProp.
Qed.

(** X8. A [files] member that is a string is searched for the entry as a
    part of it: the run finds the entry when the string holds it anywhere,
    and fails otherwise; in neither case is the manifest written or the
    entry added. *)
Theorem update_string_files (props : list (jsstring * JsValue))
        (s : jsstring) :
  getProp props filesKey = Some (JsString s) ->
  s <> [] ->
  update (JsObject props)
  = (None, if includes s fileToAdd then AlreadyPresent else Failed).
Proof.
  intros G N. unfold UpdatePackageJson.update. simpl. rewrite G.
  destruct s as [|c s]; [congruence|]. simpl truthy. cbv iota.
  cbn [withFiles filesIncludes].
  destruct (includes (c :: s) fileToAdd); reflexivity.
Qed.

(** X9. On a document that is an array the script reports the entry added
    and writes the array back without it, on every run. *)
Theorem run_on_array (content : jsstring) (elems : list (option JsValue)) :
  parse content = Some (JsArray elems) ->
  parse (stringify (JsArray elems) ++ [10%N]) = Some (JsArray elems) ->
  run (Some content) = (Some (stringify (JsArray elems) ++ [10%N]), Added)
  /\ run (fst (run (Some content)))
     = (Some (stringify (JsArray elems) ++ [10%N]), Added).
Proof.
  intros P R.
  assert (E : run (Some content)
              = (Some (stringify (JsArray elems) ++ [10%N]), Added))
    by (unfold UpdatePackageJson.run; rewrite P; reflexivity).
  split; [exact E|]. rewrite E. simpl.
  unfold UpdatePackageJson.run. rewrite R. reflexivity.
Qed.

End Script.

Import PackageSamples PackageSamplesMore.

(** A manifest that cannot be parsed. *)
Lemma run_writes_only_when_adding_witness :
  run parse stringify (Some (lit "{")) = (Some (lit "{"), Failed).
Proof.
  exact (proj2 (proj2 (run_writes_only_when_adding parse stringify
                         (Some (lit "{"))))
               (lit "{") eq_refl eq_refl).
Defined.

(** A manifest with a license after its [files]: the license stays, the
    listed file stays first. *)
Lemma update_preserves_witness :
  exists props',
    update stringify listedPkg
    = (Some (stringify (JsObject props') ++ [10%N]), Added)
    /\ getProp props' filesKey
       = Some (JsArray [Some (JsString (lit "iris_wasm.js"));
                        Some (JsString fileToAdd)])
    /\ getProp props' (lit "license") = Some (JsString (lit "MIT"))
    /\ List.map fst props' = [lit "name"; filesKey; lit "license"].
Proof.
  destruct (update_preserves stringify listedPkg eq_refl eq_refl)
    as (props & props' & elems & P & U & F & G & O & K).
  injection P as <-. injection F as <-.
  exists props'. split; [exact U|]. split; [exact G|].
  split; [exact (O (lit "license") eq_refl) | exact K].
Defined.

(** The entry as a part of a longer name in a string. *)
Lemma update_string_files_witness :
  update stringify stringFilesPkg = (None, AlreadyPresent).
Proof.
  refine (update_string_files stringify
            [(lit "name", JsString (lit "iris-wasm"));
             (filesKey, JsString (fileToAdd ++ lit ".bak"))]
            (fileToAdd ++ lit ".bak") eq_refl _).
  discriminate.
Defined.

Lemma run_on_array_witness :
  run parse stringify (Some arrayText) = (Some arrayWritten, Added)
  /\ run parse stringify (fst (run parse stringify (Some arrayText)))
     = (Some arrayWritten, Added).
Proof.
  exact (run_on_array parse stringify arrayText [] eq_refl eq_refl).
Defined.

End UpdatePackageJsonMore.

(* ================================================================== *)
(** ** More facts about filter-guards.js *)
(* ================================================================== *)

Module FilterGuardsMore.
Import Js FilterGuards GuardFile GuardFileMore FilterGuardsFacts.

(** *** Lines *)

Lemma join_cons (sep line : jsstring) (rest : list jsstring) :
  rest <> [] -> join sep (line :: rest) = line ++ sep ++ join sep rest.
Proof. destruct rest; [congruence | reflexivity]. Qed.

Lemma join_app (sep : jsstring) (front back : list jsstring) :
  front <> [] -> back <> [] ->
  join sep (front ++ back) = join sep front ++ sep ++ join sep back.
Proof.
  intros F B. induction front as [|l front IH]; [congruence|].
  destruct front as [|l' front].
  - apply join_cons. exact B.
  - change ((l :: l' :: front) ++ back)
      with (l :: ((l' :: front) ++ back)).
    rewrite !join_cons by discriminate.
    rewrite IH by discriminate. rewrite <- !app_assoc. reflexivity.
Qed.

(** A joined text among the lines joins like its lines. *)
Lemma join_flatten (sep : jsstring) (before inner after : list jsstring) :
  inner <> [] ->
  join sep (before ++ [join sep inner] ++ after)
  = join sep (before ++ inner ++ after).
Proof.
  intro N.
  assert (T : join sep ([join sep inner] ++ after)
              = join sep (inner ++ after)).
  { destruct after as [|a after].
    - rewrite !app_nil_r. reflexivity.
    - rewrite (join_app sep [join sep inner]) by discriminate.
      rewrite (join_app sep inner) by (exact N || discriminate).
      reflexivity. }
  destruct before as [|l before]; [exact T|].
  rewrite !(join_app sep (l :: before)); try discriminate.
  - rewrite T. reflexivity.
  - destruct inner; [congruence | discriminate].
Qed.

Lemma join_flatten_end (sep : jsstring) (before inner : list jsstring) :
  inner <> [] ->
  join sep (before ++ [join sep inner]) = join sep (before ++ inner).
Proof.
  intro N. pose proof (join_flatten sep before inner [] N) as H.
  rewrite (app_nil_r inner) in H. exact H.
Qed.

Lemma split_nonempty (s : jsstring) : split newline s <> [].
Proof.
  destruct s as [|c s]; simpl; [discriminate|].
  destruct (N.eqb c newline); [discriminate|].
  destruct (split newline s); discriminate.
Qed.

(** Joining the lines of a text gives the text back. *)
Lemma join_split (s : jsstring) : join [newline] (split newline s) = s.
Proof.
  induction s as [|c s IH]; simpl; [reflexivity|].
  destruct (N.eqb c newline) eqn:E.
  - apply N.eqb_eq in E. subst c.
    rewrite join_cons by apply split_nonempty. rewrite IH. reflexivity.
  - destruct (split newline s) as [|l ls] eqn:S.
    + exfalso. exact (split_nonempty s S).
    + destruct ls as [|l' ls]; simpl in *; rewrite <- IH; reflexivity.
Qed.

Lemma oneLine_app (a b : jsstring) :
  oneLine (a ++ b) = oneLine a && oneLine b.
Proof. apply forallb_app. Qed.

Lemma oneLine_replace (s p r : jsstring) :
  oneLine s = true -> oneLine r = true -> oneLine (replace s p r) = true.
Proof.
  intros S R. destruct (replace_cases s p r) as [-> | (a & b & E & ->)];
    [exact S|].
  rewrite E, !oneLine_app in S. rewrite !oneLine_app.
  apply andb_true_iff in S. destruct S as [A S].
  apply andb_true_iff in S. destruct S as [_ B].
  rewrite A, R, B. reflexivity.
Qed.

(** The rewrites put no line break into a line. *)
Lemma oneLine_rewriteLine (line : jsstring) :
  oneLine line = true -> oneLine (rewriteLine line) = true.
Proof.
  intro H. unfold rewriteLine, rewriteImport.
  apply oneLine_replace; [|reflexivity].
  destruct (startsWith (trim line) importPat); [|exact H].
  apply oneLine_replace; [exact H | reflexivity].
Qed.

Lemma split_lines_oneLine (s : jsstring) :
  forallb oneLine (split newline s) = true.
Proof.
  induction s as [|c s IH]; simpl; [reflexivity|].
  destruct (N.eqb c newline) eqn:E; simpl; [exact IH|].
  destruct (split newline s) as [|l ls]; simpl in *.
  - rewrite E. reflexivity.
  - rewrite E. exact IH.
Qed.

(** *** Declarations *)

Lemma declaresRemoved_rewriteLine (line : jsstring) :
  declaresRemoved (rewriteLine line) = declaresRemoved line.
Proof.
  unfold declaresRemoved.
  rewrite matchDecl_guard_rewriteLine, matchDecl_exclude_rewriteLine.
  reflexivity.
Qed.

(** *** The loop on any input *)

(** An iteration keeps the lines gathered and adds at most the line read,
    rewritten, which then declares no function to remove. *)
Lemma step_newLines (s : state) (line : jsstring) :
  newLines (step s line) = newLines s
  \/ (newLines (step s line) = newLines s ++ [rewriteLine line]
      /\ declaresRemoved (rewriteLine line) = false).
Proof.
  unfold step, declaresRemoved.
  destruct (matchDecl guardDecl guardsToRemove (rewriteLine line));
    [left; reflexivity|].
  destruct (insideGuard s).
  - left. destruct (Z.eqb _ 0); reflexivity.
  - destruct (matchDecl excludeDecl excludes (rewriteLine line));
      [left; reflexivity|].
    destruct (skip s); [left | right]; auto.
Qed.

Lemma fold_newLines (lines : list jsstring) :
  forall s,
  exists extra,
    newLines (fold_left step lines s) = newLines s ++ extra
    /\ subseq extra (List.map rewriteLine lines)
    /\ Forall (fun l => declaresRemoved l = false) extra.
Proof.
  induction lines as [|line lines IH]; intro s; simpl.
  - exists []. rewrite app_nil_r. repeat constructor.
  - destruct (IH (step s line)) as (extra & E & S & F).
    destruct (step_newLines s line) as [N | [N D]]; rewrite N in E.
    + exists extra. split; [exact E|]. split; [|exact F].
      apply subseq_drop. exact S.
    + exists (rewriteLine line :: extra). rewrite <- app_assoc in E.
      split; [exact E|]. split.
      * apply subseq_keep. exact S.
      * constructor; assumption.
Qed.

Lemma filterLines_subseq (lines : list jsstring) :
  subseq (filterLines lines) (List.map rewriteLine lines).
Proof.
  unfold filterLines.
  destruct (fold_newLines lines init) as (extra & E & S & _).
  rewrite E. exact S.
Qed.

(** X10. Whatever the input, the lines the filter keeps are lines of the
    input, rewritten, in their order: it leaves lines out but never adds,
    repeats or moves one. *)
Theorem kept_subseq (content : jsstring) :
  subseq (filterLines (split newline content))
         (List.map rewriteLine (split newline content)).
Proof.
  unfold filterLines.
  destruct (fold_newLines (split newline content) init)
    as (extra & E & S & _).
  rewrite E. exact S.
Qed.

Lemma subseq_Forall (P : jsstring -> Prop) (kept all : list jsstring) :
  subseq kept all -> Forall P all -> Forall P kept.
Proof.
  intro S. induction S as [|line kept all _ IH | line kept all _ IH];
    intro F.
  - constructor.
  - inversion F; subst. apply IH. assumption.
  - inversion F; subst. constructor; [assumption | apply IH; assumption].
Qed.

(** The kept lines hold no line break. *)
Lemma filterLines_oneLine (content : jsstring) :
  forallb oneLine (filterLines (split newline content)) = true.
Proof.
  apply forallb_forall. apply Forall_forall.
  apply (subseq_Forall (fun l => oneLine l = true) _ _
           (filterLines_subseq (split newline content))).
  apply Forall_forall. intros l H. apply in_map_iff in H.
  destruct H as (l0 & <- & H0). apply oneLine_rewriteLine.
  pose proof (split_lines_oneLine content) as O.
  rewrite forallb_forall in O. exact (O l0 H0).
Qed.

(** X11. Whatever the input, the lines of the output are the kept lines
    followed by the lines of the generic guards, and none of them opens
    with the declaration of a function to remove: the generic guards carry
    type parameters and are not taken for the ones removed. *)
Theorem output_never_declares (content : jsstring) :
  split newline (filterGuards content)
  = filterLines (split newline content) ++ genericGuardsLines
  /\ Forall (fun l => declaresRemoved l = false)
            (split newline (filterGuards content)).
Proof.
  assert (E : split newline (filterGuards content)
              = filterLines (split newline content) ++ genericGuardsLines).
  { unfold filterGuards, genericGuards.
    rewrite join_flatten_end by discriminate. apply split_join.
    - destruct (filterLines (split newline content)); discriminate.
    - rewrite forallb_app, filterLines_oneLine. reflexivity. }
  split; [exact E|]. rewrite E. apply Forall_app. split.
  - unfold filterLines.
    destruct (fold_newLines (split newline content) init)
      as (extra & N & _ & F).
    rewrite N. exact F.
  - assert (B : forallb (fun l => negb (declaresRemoved l))
                        genericGuardsLines = true)
      by (vm_compute; reflexivity).
    rewrite forallb_forall in B. apply Forall_forall. intros l H.
    apply negb_true_iff. exact (B l H).
Qed.

(** *** Files with nothing to remove *)

Lemma filterLines_keepAll (lines : list jsstring) :
  Forall (fun l => declaresRemoved l = false) lines ->
  filterLines lines = List.map rewriteLine lines.
Proof.
  intro H. unfold filterLines.
  assert (G : forall s,
             insideGuard s = false -> skip s = false ->
             newLines (fold_left step lines s)
             = newLines s ++ List.map rewriteLine lines).
  { induction H as [|line lines D _ IH]; intros s I K; simpl.
    - rewrite app_nil_r. reflexivity.
    - rewrite (step_keep s line I K D), IH by reflexivity.
      simpl. rewrite <- app_assoc. reflexivity. }
  apply (G init); reflexivity.
Qed.

(** X12. A text none of whose lines declares a function to remove or is
    changed by the rewrites comes out as it went in, followed by a line
    break and the generic guards. *)
Theorem plain_text_unchanged (content : jsstring) :
  Forall (fun l => declaresRemoved l = false /\ rewriteLine l = l)
         (split newline content) ->
  filterGuards content = content ++ [newline] ++ genericGuards.
Proof.
  intro H. unfold filterGuards.
  rewrite filterLines_keepAll
    by (eapply Forall_impl; [|exact H]; intros l [D _]; exact D).
  assert (M : List.map rewriteLine (split newline content)
              = split newline content).
  { induction H as [|l ls [_ R] _ IH]; simpl; [reflexivity|].
    rewrite R, IH. reflexivity. }
  rewrite M. clear M H.
  pose proof (split_nonempty content) as N.
  rewrite <- (join_split content) at 2.
  induction (split newline content) as [|l ls IH]; [congruence|].
  destruct ls as [|l' ls].
  - reflexivity.
  - change ((l :: l' :: ls) ++ [genericGuards])
      with (l :: ((l' :: ls) ++ [genericGuards])).
    rewrite !join_cons by discriminate.
    rewrite IH by discriminate. rewrite <- !app_assoc. reflexivity.
Qed.

Lemma plain_text_unchanged_witness :
  filterGuards plainText = plainText ++ [newline] ++ genericGuards.
Proof.
  apply plain_text_unchanged.
  apply Forall_forall. intros l H.
  assert (B : forallb (fun l => negb (declaresRemoved l)
                                && str_eqb (rewriteLine l) l)
                      (split newline plainText) = true)
    by (vm_compute; reflexivity).
  rewrite forallb_forall in B. specialize (B l H).
  apply andb_true_iff in B. destruct B as [D R].
  apply negb_true_iff in D. split; [exact D|].
  apply UpdatePackageJsonMore.str_eqb_eq. exact R.
Defined.

(** *** A second pass *)

Lemma fileKept_oneLine (bs : list block) :
  forallb blockOneLine bs = true -> forallb oneLine (fileKept bs) = true.
Proof.
  induction bs as [|b bs IH]; simpl; intro H; [reflexivity|].
  apply andb_true_iff in H. destruct H as [Hb Hbs].
  unfold fileKept. simpl. rewrite forallb_app.
  apply andb_true_iff. split; [|exact (IH Hbs)].
  destruct b as [line | decl body]; [exact Hb | reflexivity].
Qed.

Lemma fileKept_plain (bs : list block) :
  forallb wellFormed bs = true ->
  Forall (fun l => declaresRemoved l = false) (fileKept bs).
Proof.
  induction bs as [|b bs IH]; simpl; intro H; [constructor|].
  apply andb_true_iff in H. destruct H as [Hb Hbs].
  unfold fileKept. simpl. apply Forall_app. split; [|exact (IH Hbs)].
  destruct b as [line | decl body]; simpl; [|constructor].
  simpl in Hb. apply negb_true_iff in Hb. repeat constructor. exact Hb.
Qed.

(** X13. The filter does not undo its own work but does not stop at it
    either: run on its own output for a well-formed file, it keeps the
    generic guards it finds there and appends them once more, and it
    rewrites the kept lines again. *)
Theorem filterGuards_twice (bs : list block) :
  bs <> [] ->
  forallb blockOneLine bs = true ->
  forallb wellFormed bs = true ->
  filterGuards (filterGuards (fileText bs))
  = join [newline]
      (List.map rewriteLine (List.map rewriteLine (fileKept bs))
       ++ [genericGuards; genericGuards]).
Proof.
  intros N L W.
  set (K := List.map rewriteLine (fileKept bs)).
  assert (E1 : filterGuards (fileText bs)
               = join [newline] (K ++ genericGuardsLines)).
  { unfold filterGuards at 1. unfold fileText, filterLines.
    rewrite (split_join (fileLines bs) (fileLines_nonempty bs N)
                        (fileLines_oneLine bs L)).
    rewrite (fold_blocks bs init W eq_refl eq_refl). simpl newLines.
    fold K. unfold genericGuards.
    apply join_flatten_end. discriminate. }
  rewrite E1. unfold filterGuards.
  assert (O : forallb oneLine (K ++ genericGuardsLines) = true).
  { rewrite forallb_app. apply andb_true_iff. split; [|reflexivity].
    unfold K. apply forallb_forall. intros l H. apply in_map_iff in H.
    destruct H as (l0 & <- & H0). apply oneLine_rewriteLine.
    pose proof (fileKept_oneLine bs L) as F.
    rewrite forallb_forall in F. exact (F l0 H0). }
  rewrite split_join; [|destruct K; discriminate | exact O].
  assert (P : Forall (fun l => declaresRemoved l = false)
                     (K ++ genericGuardsLines)).
  { apply Forall_app. split.
    - unfold K. apply Forall_forall. intros l H. apply in_map_iff in H.
      destruct H as (l0 & <- & H0). rewrite declaresRemoved_rewriteLine.
      pose proof (fileKept_plain bs W) as F.
      rewrite Forall_forall in F. exact (F l0 H0).
    - assert (B : forallb (fun l => negb (declaresRemoved l))
                          genericGuardsLines = true)
        by (vm_compute; reflexivity).
      rewrite forallb_forall in B. apply Forall_forall. intros l H.
      apply negb_true_iff. exact (B l H). }
  rewrite (filterLines_keepAll _ P), map_app.
  assert (G : List.map rewriteLine genericGuardsLines = genericGuardsLines)
    by (vm_compute; reflexivity).
  rewrite G, <- app_assoc.
  change [genericGuards; genericGuards]
    with ([genericGuards] ++ [genericGuards]).
  unfold genericGuards at 2.
  rewrite (join_flatten [newline] (List.map rewriteLine K)
                         genericGuardsLines [genericGuards])
    by discriminate.
  reflexivity.
Qed.

(** *** A function that does not close *)

Lemma fold_blocks_state (bs : list block) :
  forall s,
    forallb wellFormed bs = true ->
    insideGuard s = false -> skip s = false ->
    newLines (fold_left step (fileLines bs) s)
    = newLines s ++ List.map rewriteLine (fileKept bs)
    /\ skip (fold_left step (fileLines bs) s) = false
    /\ insideGuard (fold_left step (fileLines bs) s) = false.
Proof.
  induction bs as [|b bs IH]; intros s W I K.
  - simpl. rewrite app_nil_r. auto.
  - simpl in W. apply andb_true_iff in W. destruct W as [Wb Wbs].
    unfold fileLines, fileKept. simpl flat_map.
    rewrite fold_left_app, map_app, app_assoc.
    destruct (fold_block b s Wb I K) as (N & K' & I').
    rewrite <- N. apply IH; assumption.
Qed.

(** While the braces stay open, every line after the declaration is
    dropped, in either way of skipping. *)
Lemma fold_open (body : list jsstring) :
  forall s,
    insideGuard s = true \/ skip s = true ->
    forallb (fun l => negb (declaresRemoved l)) body = true ->
    staysOpen (braceCount s) body = true ->
    newLines (fold_left step body s) = newLines s.
Proof.
  induction body as [|line rest IH]; intros s M D C; [reflexivity|].
  simpl in D. apply andb_true_iff in D. destruct D as [D Drest].
  apply negb_true_iff in D. destruct (declaresRemoved_false _ D) as [G X].
  simpl in C. apply andb_true_iff in C. destruct C as [C1 C2].
  apply negb_true_iff in C1. simpl fold_left.
  assert (E : newLines (step s line) = newLines s
              /\ braceCount (step s line) = countBraces (braceCount s) line
              /\ (insideGuard (step s line) = true
                  \/ skip (step s line) = true)).
  { unfold step. rewrite G, X, countBraces_rewriteLine, C1.
    destruct (insideGuard s) eqn:I; simpl; [auto|].
    destruct M as [M | M]; [discriminate|]. rewrite M. simpl. auto. }
  destruct E as (E1 & E2 & E3).
  rewrite (IH (step s line) E3 Drest); [exact E1|].
  rewrite E2. exact C2.
Qed.

(** X14. A function to remove whose braces never return to zero takes the
    rest of the file with it: after a well-formed part, the declaration and
    every line that follows are dropped, provided none of these lines
    declares a function to remove in its turn (such a line would start the
    count anew). *)
Theorem unclosed_drops_rest (bs : list block) (decl : jsstring)
        (body : list jsstring) :
  forallb wellFormed bs = true ->
  declaresRemoved decl = true ->
  forallb (fun l => negb (declaresRemoved l)) body = true ->
  staysOpen (countBraces 0 decl) body = true ->
  filterLines (fileLines bs ++ decl :: body)
  = List.map rewriteLine (fileKept bs).
Proof.
  intros W D B C. unfold filterLines. rewrite fold_left_app.
  destruct (fold_blocks_state bs init W eq_refl eq_refl) as (N & K & I).
  set (s := fold_left step (fileLines bs) init) in *.
  simpl fold_left.
  assert (E : newLines (step s decl) = newLines s
              /\ braceCount (step s decl) = countBraces 0 decl
              /\ (insideGuard (step s decl) = true
                  \/ skip (step s decl) = true)).
  { unfold declaresRemoved in D.
    rewrite <- matchDecl_guard_rewriteLine,
            <- matchDecl_exclude_rewriteLine in D.
    unfold step. rewrite countBraces_rewriteLine.
    destruct (matchDecl guardDecl guardsToRemove (rewriteLine decl));
      [simpl; auto|].
    rewrite I.
    destruct (matchDecl excludeDecl excludes (rewriteLine decl));
      [simpl; auto | discriminate]. }
  destruct E as (E1 & E2 & E3).
  rewrite (fold_open body (step s decl) E3 B); [|rewrite E2; exact C].
  rewrite E1, N. reflexivity.
Qed.

Lemma unclosed_drops_rest_witness :
  filterLines (fileLines GuardSamples.generated
               ++ unclosedDecl :: unclosedBody)
  = filterLines (fileLines GuardSamples.generated).
Proof.
  rewrite (unclosed_drops_rest GuardSamples.generated unclosedDecl
             unclosedBody eq_refl eq_refl eq_refl eq_refl).
  vm_compute. reflexivity.
Defined.

Lemma filterGuards_twice_witness :
  filterGuards (filterGuards (fileText GuardSamples.generated))
  = filterGuards (fileText GuardSamples.generated)
    ++ [newline] ++ genericGuards.
Proof.
  refine (eq_trans (filterGuards_twice GuardSamples.generated _
                      eq_refl eq_refl) _).
  - discriminate.
  - vm_compute. reflexivity.
Defined.

(** *** The import rewrite *)

(** X15. The import rewrite is done once: a line already rewritten is not
    rewritten again, so a type import is never made a type import
    twice. *)
Theorem rewriteImport_idempotent (line : jsstring) :
  rewriteImport (rewriteImport line) = rewriteImport line.
Proof.
  destruct (trimStart_rewriteImport line) as [(rest & _ & E) | (S & E)].
  - unfold rewriteImport at 1.
    rewrite (startsWith_trim _ importPat eq_refl), E. reflexivity.
  - rewrite E. unfold rewriteImport.
    rewrite (startsWith_trim _ importPat eq_refl), S. reflexivity.
Qed.

(** X16. The two rewrites do not interfere with the removal: a rewritten
    line opens with the declaration of a function to remove exactly when
    the line read does, and holds the same balance of braces. *)
Theorem rewrites_neutral (line : jsstring) (count : Z) :
  declaresRemoved (rewriteLine line) = declaresRemoved line
  /\ matchDecl guardDecl guardsToRemove (rewriteLine line)
     = matchDecl guardDecl guardsToRemove line
  /\ countBraces count (rewriteLine line) = countBraces count line.
Proof.
  split; [apply declaresRemoved_rewriteLine|].
  split; [apply matchDecl_guard_rewriteLine|].
  apply countBraces_rewriteLine.
Qed.

End FilterGuardsMore.
